(** * Stripes bigram job (stripes-bigram.py): a shallow embedding

    The MapReduce job [MRStripes] has one mapper and two reducers.  Each of
    them is a Python generator; here a generator is the list of the pairs it
    yields, inside an error monad that records the exception that would
    escape from the generator body.

    - Python [dict] (and [Counter]) values are association lists in insertion
      order with unique keys: assigning to a present key keeps its position,
      assigning to a new key appends it.
    - Python [int] is [Z]; Python [float] is a type [F] behind the interface
      [PyFloat], with two instances: exact rationals (used for reasoning) and
      IEEE binary64 primitive floats (used to evaluate concrete runs).
    - Text is ASCII: a [str] is a [string] of 8-bit characters. *)

From Stdlib Require Import List Bool Arith ZArith QArith Qabs Lia.
From Stdlib Require Import Ascii String Permutation Sorted.
From Stdlib Require Import Floats Uint63.
Import ListNotations.

Close Scope Q_scope.
Open Scope nat_scope.

(** ** Exceptions and generators *)

Inductive exn : Set :=
| IndexError
| ZeroDivisionError
| UnboundLocalError.

Inductive outcome (A : Type) : Type :=
| Ok (a : A)
| Raise (e : exn).

Arguments Ok {A} a.
Arguments Raise {A} e.

Definition bind {A B : Type} (r : outcome A) (k : A -> outcome B) : outcome B :=
  match r with
  | Ok a => k a
  | Raise e => Raise e
  end.

Notation "x <- r ;; k" := (bind r (fun x => k))
  (at level 61, r at next level, right associativity).

Fixpoint mapM {A B : Type} (f : A -> outcome B) (l : list A) : outcome (list B) :=
  match l with
  | [] => Ok []
  | a :: l' => b <- f a ;; bs <- mapM f l' ;; Ok (b :: bs)
  end.

(** ** Dictionaries *)

Definition dict (V : Type) : Type := list (string * V).

Fixpoint dict_get {V : Type} (k : string) (d : dict V) : option V :=
  match d with
  | [] => None
  | (k', v) :: d' => if String.eqb k' k then Some v else dict_get k d'
  end.

(** [k in d] *)
Definition dict_mem {V : Type} (k : string) (d : dict V) : bool :=
  match dict_get k d with
  | Some _ => true
  | None => false
  end.

(** [d[k] = v] *)
Fixpoint dict_set {V : Type} (k : string) (v : V) (d : dict V) : dict V :=
  match d with
  | [] => [(k, v)]
  | (k', v') :: d' =>
      if String.eqb k' k then (k, v) :: d' else (k', v') :: dict_set k v d'
  end.

(** [del c[k]] on a [Counter], which does not raise when [k] is missing *)
Definition dict_del {V : Type} (k : string) (d : dict V) : dict V :=
  filter (fun kv => negb (String.eqb (fst kv) k)) d.

(** [c[k]] on a [Counter]: a missing key reads as 0 *)
Definition counter_get (k : string) (c : dict Z) : Z :=
  match dict_get k c with
  | Some v => v
  | None => 0%Z
  end.

Definition keys {V : Type} (d : dict V) : list string := map fst d.

Definition sum_values (d : dict Z) : Z :=
  fold_right (fun kv acc => (snd kv + acc)%Z) 0%Z d.

(** ** Module constants *)

Definition TARGET_WORD : string := "me".
Definition DUMCHAR : string := "*".

(** ** Text helpers used by the mapper *)

Definition double_quote : ascii := ascii_of_nat 34.

(** [string.punctuation] *)
Definition punctuation : list ascii :=
  list_ascii_of_string
    ("!" ++ String double_quote "#$%&'()*+,-./:;<=>?@[\]^_`{|}~")%string.

Definition ascii_in (c : ascii) (l : list ascii) : bool :=
  existsb (Ascii.eqb c) l.

(** [s.translate(translator)] with [translator = str.maketrans('', '', string.punctuation)] *)
Definition translate (s : list ascii) : list ascii :=
  filter (fun c => negb (ascii_in c punctuation)) s.

(** Whitespace of [str.strip()] and [str.split()] in the ASCII range:
    TAB, LF, VT, FF, CR, FS, GS, RS, US and space. *)
Definition is_space (c : ascii) : bool :=
  let n := nat_of_ascii c in
  ((9 <=? n) && (n <=? 13)) || ((28 <=? n) && (n <=? 32)).

Fixpoint lstrip (s : list ascii) : list ascii :=
  match s with
  | [] => []
  | c :: s' => if is_space c then lstrip s' else s
  end.

Definition strip (s : list ascii) : list ascii :=
  rev (lstrip (rev (lstrip s))).

Definition lower_char (c : ascii) : ascii :=
  let n := nat_of_ascii c in
  if (65 <=? n) && (n <=? 90) then ascii_of_nat (n + 32) else c.

Definition lower (s : list ascii) : list ascii := map lower_char s.

(** [s.split()]: maximal runs of non-whitespace characters; [cur] is the
    run being read, reversed. *)
Fixpoint split_ws (cur : list ascii) (s : list ascii) : list (list ascii) :=
  match s with
  | [] => match cur with [] => [] | _ => [rev cur] end
  | c :: s' =>
      if is_space c
      then match cur with
           | [] => split_ws [] s'
           | _ => rev cur :: split_ws [] s'
           end
      else split_ws (c :: cur) s'
  end.

Definition split (s : list ascii) : list (list ascii) := split_ws [] s.

(** [s.split(",", 1)]: cut at the first comma, if there is one *)
Fixpoint split_comma_1 (s : list ascii) : list (list ascii) :=
  match s with
  | [] => [[]]
  | c :: s' =>
      if Ascii.eqb c ","
      then [[]; s']
      else match split_comma_1 s' with
           | head :: tail => (c :: head) :: tail
           | [] => [[c]]
           end
  end.

(** [l[i]] on a list *)
Definition getitem {A : Type} (l : list A) (i : nat) : outcome A :=
  match nth_error l i with
  | Some a => Ok a
  | None => Raise IndexError
  end.

(** ** The mapper *)

(** Lines 66-68: the token sequence of a record. *)
Definition tokenize (line : string) : outcome (list string) :=
  let sublines := split_comma_1 (list_ascii_of_string line) in
  field <- getitem sublines 1 ;;
  let jokeline := translate field in
  Ok (map string_of_list_ascii (split (lower (strip jokeline)))).

(** [line[i]] for an index that the enclosing [range] keeps in bounds *)
Definition at_index (line : list string) (i : nat) : string :=
  nth i line EmptyString.

(** Lines 80-83: count one more occurrence of [key] in the stripe. *)
Definition increment (key : string) (t_stripes : dict Z) : dict Z :=
  match dict_get key t_stripes with
  | Some v => dict_set key (v + 1)%Z t_stripes
  | None => dict_set key 1%Z t_stripes
  end.

(** Lines 79-83: one iteration of the inner loop. *)
Definition mapper_neighbour (line : list string) (word : nat)
    (t_stripes : dict Z) (neighbour : nat) : dict Z :=
  if String.eqb (at_index line (neighbour - 1)) (at_index line word)
  then increment (at_index line neighbour) t_stripes
  else t_stripes.

(** Lines 75-87: one iteration of the outer loop; the state is the
    [processed] dictionary and the pairs yielded so far. *)
Definition mapper_word (line : list string)
    (st : dict Z * list (string * dict Z)) (word : nat)
    : dict Z * list (string * dict Z) :=
  let (processed, yielded) := st in
  if negb (dict_mem (at_index line word) processed)
  then
    let processed := dict_set (at_index line word) 1%Z processed in
    let t_stripes :=
      fold_left (mapper_neighbour line word)
        (seq (word + 1) (List.length line - (word + 1)))
        [(DUMCHAR, 1%Z)] in
    (processed, yielded ++ [(at_index line word, t_stripes)])
  else
    (processed, yielded ++ [(at_index line word, [(DUMCHAR, 1%Z)])]).

(** Lines 70-89: the stripes of a token sequence. *)
Definition mapper_tokens (line : list string) : list (string * dict Z) :=
  snd (fold_left (mapper_word line) (seq 0 (List.length line)) ([], [])).

Definition mapper (line : string) : outcome (list (string * dict Z)) :=
  tokens <- tokenize line ;;
  Ok (mapper_tokens tokens).

(** ** Python floats

    The two reducers need [int / int] (true division, the divisor already
    checked to be non-zero) and [<] on floats, which [sorted] uses. *)

Class PyFloat (F : Type) : Type := {
  true_div : Z -> Z -> F;
  float_lt : F -> F -> bool
}.

(** Exact quotients, kept in lowest terms so that equal values are equal terms. *)
#[export] Instance exact_float : PyFloat Q := {|
  true_div a b := Qred (inject_Z a / inject_Z b);
  float_lt x y := negb (Qle_bool y x)
|}.

Definition float_of_int (z : Z) : float :=
  match z with
  | Z0 => PrimFloat.zero
  | Zpos _ => PrimFloat.of_uint63 (Uint63.of_Z z)
  | Zneg p => PrimFloat.opp (PrimFloat.of_uint63 (Uint63.of_Z (Zpos p)))
  end.

(** IEEE binary64, as CPython has it; [int / int] agrees with the division of
    the converted operands while both are below 2^53 in absolute value. *)
#[export] Instance binary64_float : PyFloat float := {|
  true_div a b := PrimFloat.div (float_of_int a) (float_of_int b);
  float_lt := PrimFloat.ltb
|}.

(** ** The reducer *)

(** Line 108: [result[key] += value] on a [Counter]. *)
Definition reducer_add (result : dict Z) (item : string * Z) : dict Z :=
  let (key, value) := item in
  dict_set key (counter_get key result + value)%Z result.

(** Lines 107-110: the body of the loop over [strips]; the state is [result]
    and [total_w], which is unbound before the first iteration. *)
Definition reducer_strip (st : dict Z * option Z) (strip : dict Z)
    : dict Z * option Z :=
  let result := fold_left reducer_add strip (fst st) in
  (result, Some (counter_get DUMCHAR result)).

(** Lines 104-110. *)
Definition reducer_merge (strips : list (dict Z)) : dict Z * option Z :=
  fold_left reducer_strip strips ([], None).

Definition merged_counts (strips : list (dict Z)) : dict Z :=
  fst (reducer_merge strips).

Section Reducers.
Context {F : Type} `{PyFloat F}.

(** Line 113: [result[key] = result[key] / total_w] for one item. *)
Definition reducer_divide (total_w : option Z) (item : string * Z)
    : outcome (string * F) :=
  match total_w with
  | None => Raise UnboundLocalError
  | Some t =>
      if (t =? 0)%Z then Raise ZeroDivisionError
      else Ok (fst item, true_div (snd item) t)
  end.

(** Lines 104-118; the generator yields one pair. *)
Definition reducer (word : string) (strips : list (dict Z))
    : outcome (list (string * dict F)) :=
  let (result, total_w) := reducer_merge strips in
  result <- mapM (reducer_divide total_w) result ;;
  Ok [(word, dict_del DUMCHAR result)].

(** ** The top-ten reducer *)

(** [sorted(items, key=operator.itemgetter(1), reverse=True)].  Python's
    sort is stable, also with [reverse=True]: an item moves behind the items
    of strictly greater value only. *)
Fixpoint insert_desc (x : string * F) (l : list (string * F))
    : list (string * F) :=
  match l with
  | [] => [x]
  | y :: l' =>
      if float_lt (snd x) (snd y) then y :: insert_desc x l' else x :: l
  end.

Definition sorted_desc (items : dict F) : list (string * F) :=
  fold_right insert_desc [] items.

(** Lines 125-127: after the loop, [sorted_dict] and [max_terms] hold what
    the last iteration assigned, and are unbound if there was none. *)
Definition topten_scan (probs : list (dict F))
    : option (list (string * F) * Z) :=
  fold_left
    (fun _ probdict =>
       let sorted_dict := sorted_desc probdict in
       Some (sorted_dict, Z.of_nat (List.length sorted_dict)))
    probs None.

(** Lines 120-131. *)
Definition reducer_topten (word : string) (probs : list (dict F))
    : outcome (list (Z * (string * F))) :=
  if String.eqb word TARGET_WORD then
    match topten_scan probs with
    | None => Raise UnboundLocalError
    | Some (sorted_dict, max_terms) =>
        let max_terms := if (10 <? max_terms)%Z then 10%Z else max_terms in
        mapM (fun rank =>
                entry <- getitem sorted_dict rank ;;
                Ok ((Z.of_nat rank + 1)%Z, entry))
             (seq 0 (Z.to_nat max_terms))
    end
  else Ok [].

(** The ranked list of one distribution, as the job emits it. *)
Definition ranked (probdict : dict F) : list (Z * (string * F)) :=
  let sorted_dict := sorted_desc probdict in
  let k := Nat.min 10 (List.length sorted_dict) in
  combine (map (fun rank => (Z.of_nat rank + 1)%Z) (seq 0 k))
          (firstn k sorted_dict).
End Reducers.

(** ** The map stage over a corpus, and what the shuffle groups under a key *)

Definition map_stage (corpus : list string)
    : outcome (list (string * dict Z)) :=
  yielded <- mapM mapper corpus ;;
  Ok (List.concat yielded).

Definition stripes_for (w : string) (emitted : list (string * dict Z))
    : list (dict Z) :=
  map snd (filter (fun kv => String.eqb (fst kv) w) emitted).

(** A stripe that some record makes the mapper yield. *)
Definition mapper_produced (strip : dict Z) : Prop :=
  exists (line : string) (yielded : list (string * dict Z)) (key : string),
    mapper line = Ok yielded /\ In (key, strip) yielded.

(** ** Counting in token sequences *)

Definition occurrences (w : string) (tokens : list string) : Z :=
  Z.of_nat (count_occ string_dec tokens w).

(** How often [x] comes directly after [w]. *)
Fixpoint bigrams (w x : string) (tokens : list string) : Z :=
  match tokens with
  | a :: (b :: _) as rest =>
      ((if String.eqb a w && String.eqb b x then 1 else 0)
       + bigrams w x rest)%Z
  | _ => 0%Z
  end.

(** How many occurrences of [w] have a successor. *)
Fixpoint followed (w : string) (tokens : list string) : Z :=
  match tokens with
  | a :: (_ :: _) as rest =>
      ((if String.eqb a w then 1 else 0) + followed w rest)%Z
  | _ => 0%Z
  end.

Definition total (f : list string -> Z) (records : list (list string)) : Z :=
  fold_right (fun tokens acc => (f tokens + acc)%Z) 0%Z records.

Definition sum_over (f : dict Z -> Z) (strips : list (dict Z)) : Z :=
  fold_right (fun strip acc => (f strip + acc)%Z) 0%Z strips.

(** The SELF-marker counts of the stripes yielded under key [w], summed. *)
Definition self_sum (w : string) (emitted : list (string * dict Z)) : Z :=
  sum_over (counter_get DUMCHAR) (stripes_for w emitted).

(** What the items of a stripe add to the counter of [k]. *)
Definition entry_sum (k : string) (strip : dict Z) : Z :=
  fold_right
    (fun kv acc => if String.eqb (fst kv) k then (snd kv + acc)%Z else acc)
    0%Z strip.

Definition sum_probs (d : dict Q) : Q :=
  fold_right (fun kv acc => (snd kv + acc)%Q) 0%Q d.

(** Every stripe the mapper yields has unique keys, counts of at least 1 and
    the SELF marker. *)
Definition well_formed (strip : dict Z) : Prop :=
  NoDup (keys strip)
  /\ Forall (fun kv => (1 <= snd kv)%Z) strip
  /\ (1 <= counter_get DUMCHAR strip)%Z.

(** ** The mapper's loops by recursion on the token sequence *)

(** The inner loop from position [word + 1] on: [prev] is the token before
    the first token of [rest]. *)
Fixpoint scan_neighbours (w prev : string) (rest : list string)
    (t_stripes : dict Z) : dict Z :=
  match rest with
  | [] => t_stripes
  | x :: rest' =>
      scan_neighbours w x rest'
        (if String.eqb prev w then increment x t_stripes else t_stripes)
  end.

(** The outer loop over the remaining tokens. *)
Fixpoint stripes_from (processed : dict Z) (tokens : list string)
    : list (string * dict Z) :=
  match tokens with
  | [] => []
  | w :: rest =>
      if negb (dict_mem w processed)
      then (w, scan_neighbours w w rest [(DUMCHAR, 1%Z)])
             :: stripes_from (dict_set w 1%Z processed) rest
      else (w, [(DUMCHAR, 1%Z)]) :: stripes_from processed rest
  end.

(** ** What the specification asks of the selector *)

(** Merging distributions: sum the probabilities by neighbor, then divide by
    the summed mass. *)
Definition spec_merge_add (acc : dict Q) (item : string * Q) : dict Q :=
  match dict_get (fst item) acc with
  | Some p => dict_set (fst item) (p + snd item)%Q acc
  | None => dict_set (fst item) (snd item) acc
  end.

Definition spec_merge (probs : list (dict Q)) : dict Q :=
  let summed := fold_left (fun acc d => fold_left spec_merge_add d acc) probs [] in
  let mass := sum_probs summed in
  map (fun kv => (fst kv, Qred (snd kv / mass))) summed.

(** Ranking order: greater probability first, ties by ascending token. *)
Definition spec_before (x y : string * Q) : bool :=
  negb (Qle_bool (snd x) (snd y))
  || (Qeq_bool (snd x) (snd y) && String.leb (fst x) (fst y)).

Fixpoint spec_insert (x : string * Q) (l : list (string * Q))
    : list (string * Q) :=
  match l with
  | [] => [x]
  | y :: l' => if spec_before x y then x :: l else y :: spec_insert x l'
  end.

Definition spec_ranked (probdict : dict Q) : list (Z * (string * Q)) :=
  let ordered := fold_right spec_insert [] probdict in
  let k := Nat.min 10 (List.length probdict) in
  combine (map (fun rank => (Z.of_nat rank + 1)%Z) (seq 0 k)) (firstn k ordered).

(** ** The second step over the grouped output of the first *)

Definition select_stage {F : Type} `{PyFloat F}
    (groups : list (string * list (dict F)))
    : outcome (list (Z * (string * F))) :=
  yielded <- mapM (fun group => reducer_topten (fst group) (snd group)) groups ;;
  Ok (List.concat yielded).

(** ** Records used as examples *)

(** The record [1,"I like me and you like me too"]. *)
Definition example_record : string :=
  ("1," ++ String double_quote "I like me and you like me too"
        ++ String double_quote EmptyString)%string.

Definition example_tokens : list string :=
  ["i"; "like"; "me"; "and"; "you"; "like"; "me"; "too"]%string.

Definition example_stripes : list (dict Z) :=
  [[(DUMCHAR, 1%Z); ("and"%string, 1%Z); ("too"%string, 1%Z)];
   [(DUMCHAR, 1%Z)]].

Definition example_emitted : list (string * dict Z) :=
  mapper_tokens example_tokens.

(** Two distributions with a tie, one key each. *)
Definition example_first : dict Q := [("a"%string, 1%Q)].
Definition example_last : dict Q := [("b"%string, 1%Q)].

(** The distribution of [me] in the record [1,me zebra me apple]. *)
Definition example_tie : dict Q :=
  [("zebra"%string, (1 # 2)%Q); ("apple"%string, (1 # 2)%Q)].

(** ** Notions used to describe what the job yields *)

Definition is_upper (c : ascii) : bool :=
  let n := nat_of_ascii c in
  (65 <=? n) && (n <=? 90).

(** A character that can stand in a token. *)
Definition normalized_char (c : ascii) : Prop :=
  is_space c = false /\ ascii_in c punctuation = false /\ is_upper c = false.

(** The neighbor counts of all yielded stripes, summed. *)
Definition neighbour_mass (yielded : list (string * dict Z)) : Z :=
  fold_right
    (fun ks acc => (sum_values (dict_del DUMCHAR (snd ks)) + acc)%Z)
    0%Z yielded.

(** How many tokens that are not in [processed] have a successor. *)
Fixpoint fresh_followed (processed : dict Z) (tokens : list string) : Z :=
  match tokens with
  | a :: (_ :: _) as rest =>
      ((if dict_mem a processed then 0 else 1)
       + fresh_followed processed rest)%Z
  | _ => 0%Z
  end.

(** The keys of [l] in the order of their first appearance, after [seen]. *)
Definition first_seen (l seen : list string) : list string :=
  fold_left
    (fun acc k => if existsb (String.eqb k) acc then acc else acc ++ [k])
    l seen.

(** Two runs of the reducer that agree: the same exception, or one pair each
    with the same key and the same neighbor-to-probability mapping. *)
Definition same_distribution {F : Type}
    (r1 r2 : outcome (list (string * dict F))) : Prop :=
  match r1, r2 with
  | Ok [(w1, d1)], Ok [(w2, d2)] =>
      w1 = w2 /\ forall k, dict_get k d1 = dict_get k d2
  | Raise e1, Raise e2 => e1 = e2
  | _, _ => False
  end.

(** * Properties *)

(** ** The error monad *)

Lemma bind_Ok_inv {A B : Type} (r : outcome A) (k : A -> outcome B) (b : B) :
  bind r k = Ok b -> exists a, r = Ok a /\ k a = Ok b.
Proof.
  destruct r as [a | e]; simpl; intros E; [eauto | discriminate].
Qed.

Lemma mapM_Ok_map {A B : Type} (f : A -> outcome B) (g : A -> B) (l : list A) :
  (forall a, In a l -> f a = Ok (g a)) -> mapM f l = Ok (map g l).
Proof.
  induction l as [| a l IH]; intros Hf; simpl; [reflexivity |].
  rewrite (Hf a (or_introl eq_refl)); simpl.
  rewrite IH by (intros; apply Hf; now right).
  reflexivity.
Qed.

(** ** The mapper's loops *)

Lemma at_index_middle (pre suf : list string) (x : string) :
  at_index (pre ++ x :: suf) (List.length pre) = x.
Proof. unfold at_index. apply nth_middle. Qed.

Lemma mapper_neighbour_scan (word : nat) (w : string) :
  forall (suf pre : list string) (prev : string) (t : dict Z),
    at_index (pre ++ prev :: suf) word = w ->
    fold_left (mapper_neighbour (pre ++ prev :: suf) word)
      (seq (S (List.length pre)) (List.length suf)) t
    = scan_neighbours w prev suf t.
Proof.
  induction suf as [| x suf IH]; intros pre prev t Hw; [reflexivity |].
  cbn [List.length seq fold_left scan_neighbours].
  assert (Hstep : mapper_neighbour (pre ++ prev :: x :: suf) word t (S (List.length pre))
                  = if String.eqb prev w then increment x t else t).
  { unfold mapper_neighbour.
    replace (S (List.length pre) - 1) with (List.length pre) by lia.
    rewrite at_index_middle, Hw.
    replace (pre ++ prev :: x :: suf) with ((pre ++ [prev]) ++ x :: suf)
      by (rewrite <- app_assoc; reflexivity).
    replace (S (List.length pre)) with (List.length (pre ++ [prev]))
      by (rewrite length_app; simpl; lia).
    rewrite at_index_middle. reflexivity. }
  rewrite Hstep.
  replace (pre ++ prev :: x :: suf) with ((pre ++ [prev]) ++ x :: suf) in *
    by (rewrite <- app_assoc; reflexivity).
  replace (S (S (List.length pre))) with (S (List.length (pre ++ [prev])))
    by (rewrite length_app; simpl; lia).
  apply IH. exact Hw.
Qed.

Lemma mapper_word_stripes :
  forall (suf pre : list string) (processed : dict Z)
         (yielded : list (string * dict Z)),
    snd (fold_left (mapper_word (pre ++ suf))
           (seq (List.length pre) (List.length suf)) (processed, yielded))
    = yielded ++ stripes_from processed suf.
Proof.
  induction suf as [| w rest IH]; intros pre processed yielded.
  - simpl. now rewrite app_nil_r.
  - cbn [List.length seq fold_left stripes_from].
    replace (pre ++ w :: rest) with ((pre ++ [w]) ++ rest) at 1
      by (rewrite <- app_assoc; reflexivity).
    replace (S (List.length pre)) with (List.length (pre ++ [w]))
      by (rewrite length_app; simpl; lia).
    unfold mapper_word at 2.
    rewrite at_index_middle.
    destruct (negb (dict_mem w processed)).
    + replace (List.length pre + 1) with (S (List.length pre)) by lia.
      replace (List.length (pre ++ w :: rest) - S (List.length pre))
        with (List.length rest) by (rewrite length_app; simpl; lia).
      rewrite (mapper_neighbour_scan (List.length pre) w) by apply at_index_middle.
      rewrite IH, <- app_assoc. reflexivity.
    + rewrite IH, <- app_assoc. reflexivity.
Qed.

Lemma mapper_tokens_stripes (tokens : list string) :
  mapper_tokens tokens = stripes_from [] tokens.
Proof.
  unfold mapper_tokens.
  apply (mapper_word_stripes tokens [] [] []).
Qed.

(** ** The tokenizer *)

Lemma split_comma_1_shape (s : list ascii) :
  (~ In ","%char s /\ split_comma_1 s = [s])
  \/ (In ","%char s /\ exists a b, split_comma_1 s = [a; b]).
Proof.
  induction s as [| c s IH]; simpl.
  - left. split; [tauto | reflexivity].
  - destruct (Ascii.eqb_spec c ","%char) as [-> | Hc].
    + right. split; [now left | eauto].
    + destruct IH as [[Hno E] | [Hin (a & b & E)]]; rewrite E.
      * left. split; [| reflexivity]. intros [Hx | Hx]; auto.
      * right. split; [now right | eauto].
Qed.

Lemma tokenize_no_comma (line : string) :
  ~ In ","%char (list_ascii_of_string line) ->
  tokenize line = Raise IndexError.
Proof.
  intros Hno. unfold tokenize.
  destruct (split_comma_1_shape (list_ascii_of_string line))
    as [[_ E] | [Hin _]]; [| contradiction].
  rewrite E. reflexivity.
Qed.

Lemma tokenize_comma (line : string) :
  In ","%char (list_ascii_of_string line) ->
  exists tokens, tokenize line = Ok tokens.
Proof.
  intros Hin. unfold tokenize.
  destruct (split_comma_1_shape (list_ascii_of_string line))
    as [[Hno _] | [_ (a & b & E)]]; [contradiction |].
  rewrite E. simpl. eauto.
Qed.

Lemma lstrip_Forall (P : ascii -> Prop) (s : list ascii) :
  Forall P s -> Forall P (lstrip s).
Proof.
  induction 1 as [| c s Hc Hs IH]; simpl; [constructor |].
  destruct (is_space c); auto.
Qed.

Lemma strip_Forall (P : ascii -> Prop) (s : list ascii) :
  Forall P s -> Forall P (strip s).
Proof.
  intros Hs. unfold strip.
  apply Forall_rev, lstrip_Forall, Forall_rev, lstrip_Forall, Hs.
Qed.

Lemma split_ws_Forall (P : ascii -> Prop) (s : list ascii) :
  forall cur, Forall P cur -> Forall P s -> Forall (Forall P) (split_ws cur s).
Proof.
  induction s as [| c s IH]; intros cur Hcur Hs; simpl.
  - destruct cur; [constructor |].
    constructor; [now apply Forall_rev | constructor].
  - inversion Hs as [| ? ? Hc Hs']; subst.
    destruct (is_space c).
    + destruct cur; [now apply IH |].
      constructor; [now apply Forall_rev | now apply IH].
    + apply IH; [now constructor | assumption].
Qed.

(** A token is never the empty string. *)
Lemma split_ws_nonempty (s : list ascii) :
  forall cur, Forall (fun w => w <> []) (split_ws cur s).
Proof.
  induction s as [| c s IH]; intros cur; simpl.
  - destruct cur as [| a cur]; [constructor |].
    constructor; [| constructor].
    simpl. intros E. now apply app_eq_nil in E as [_ E].
  - destruct (is_space c); [| apply IH].
    destruct cur as [| a cur]; [apply IH |].
    constructor; [| apply IH].
    simpl. intros E. now apply app_eq_nil in E as [_ E].
Qed.

Lemma lower_char_star (c : ascii) :
  lower_char c = "*"%char -> c = "*"%char.
Proof.
  destruct c as [[] [] [] [] [] [] [] []]; vm_compute; congruence.
Qed.

Lemma star_is_punctuation : ascii_in "*"%char punctuation = true.
Proof. reflexivity. Qed.

(** No token is the SELF marker: the tokenizer deletes every [*]. *)
Lemma tokenize_clean (line : string) (tokens : list string) :
  tokenize line = Ok tokens -> ~ In DUMCHAR tokens.
Proof.
  unfold tokenize. intros E.
  apply bind_Ok_inv in E as (field & _ & E). injection E as <-.
  set (P := fun c : ascii => c <> "*"%char).
  assert (Htr : Forall P (translate field)).
  { apply Forall_forall. intros c Hc.
    apply filter_In in Hc as [_ Hc]. intros ->.
    now rewrite star_is_punctuation in Hc. }
  assert (Hlow : Forall P (lower (strip (translate field)))).
  { apply strip_Forall in Htr. unfold lower.
    apply Forall_forall. intros c Hc.
    apply in_map_iff in Hc as (c0 & <- & Hc0).
    rewrite Forall_forall in Htr. intros Hstar.
    apply lower_char_star in Hstar. now apply (Htr c0). }
  pose proof (split_ws_Forall P _ [] (Forall_nil _) Hlow) as Hsp.
  fold (split (lower (strip (translate field)))) in Hsp.
  intros Hin. apply in_map_iff in Hin as (w & Ew & Hw).
  rewrite Forall_forall in Hsp. specialize (Hsp w Hw).
  assert (w = ["*"%char]) as ->.
  { rewrite <- (list_ascii_of_string_of_list_ascii w), Ew. reflexivity. }
  inversion Hsp as [| ? ? Hstar _]; subst. now apply Hstar.
Qed.

Lemma mapper_Ok_inv (line : string) (yielded : list (string * dict Z)) :
  mapper line = Ok yielded ->
  exists tokens,
    tokenize line = Ok tokens /\ ~ In DUMCHAR tokens
    /\ yielded = stripes_from [] tokens.
Proof.
  unfold mapper. intros E.
  apply bind_Ok_inv in E as (tokens & Et & E). injection E as <-.
  exists tokens. split; [assumption |]. split.
  - now apply (tokenize_clean line).
  - apply mapper_tokens_stripes.
Qed.

(** ** Dictionaries *)

Lemma dict_get_set_same {V : Type} (k : string) (v : V) (d : dict V) :
  dict_get k (dict_set k v d) = Some v.
Proof.
  induction d as [| [k' v'] d IH]; simpl.
  - now rewrite String.eqb_refl.
  - destruct (String.eqb_spec k' k) as [-> | Hk]; simpl.
    + now rewrite String.eqb_refl.
    + destruct (String.eqb_spec k' k); [contradiction | exact IH].
Qed.

Lemma dict_get_set_other {V : Type} (k k0 : string) (v : V) (d : dict V) :
  k <> k0 -> dict_get k0 (dict_set k v d) = dict_get k0 d.
Proof.
  intros Hne. induction d as [| [k' v'] d IH]; simpl.
  - destruct (String.eqb_spec k k0); [contradiction | reflexivity].
  - destruct (String.eqb_spec k' k) as [-> | Hk]; simpl.
    + destruct (String.eqb_spec k k0); [contradiction | reflexivity].
    + destruct (String.eqb_spec k' k0); [reflexivity | exact IH].
Qed.

Lemma dict_get_None_keys {V : Type} (k : string) (d : dict V) :
  dict_get k d = None <-> ~ In k (keys d).
Proof.
  induction d as [| [k' v'] d IH]; simpl; [tauto |].
  destruct (String.eqb_spec k' k) as [-> | Hk].
  - split; [discriminate | intros Hn; exfalso; apply Hn; now left].
  - rewrite IH. tauto.
Qed.

Lemma dict_set_keys {V : Type} (k : string) (v : V) (d : dict V) :
  keys (dict_set k v d)
  = if dict_mem k d then keys d else keys d ++ [k].
Proof.
  unfold dict_mem.
  induction d as [| [k' v'] d IH]; simpl; [reflexivity |].
  destruct (String.eqb_spec k' k) as [-> | Hk]; simpl; [reflexivity |].
  rewrite IH. destruct (dict_get k d); reflexivity.
Qed.

Lemma dict_set_NoDup {V : Type} (k : string) (v : V) (d : dict V) :
  NoDup (keys d) -> NoDup (keys (dict_set k v d)).
Proof.
  intros Hd. rewrite dict_set_keys. unfold dict_mem.
  destruct (dict_get k d) eqn:E; [assumption |].
  apply dict_get_None_keys in E.
  apply NoDup_rev in Hd. rewrite <- (rev_involutive (keys d ++ [k])).
  apply NoDup_rev. rewrite rev_app_distr. simpl.
  constructor; [now rewrite <- in_rev | assumption].
Qed.

Lemma dict_set_Forall {V : Type} (P : string * V -> Prop) (k : string) (v : V)
    (d : dict V) :
  P (k, v) -> Forall P d -> Forall P (dict_set k v d).
Proof.
  intros Hkv. induction 1 as [| [k' v'] d Hx Hd IH]; simpl.
  - constructor; [assumption | constructor].
  - destruct (String.eqb k' k); constructor; assumption.
Qed.

Lemma dict_get_In {V : Type} (k : string) (v : V) (d : dict V) :
  dict_get k d = Some v -> In (k, v) d.
Proof.
  induction d as [| [k' v'] d IH]; simpl; [discriminate |].
  destruct (String.eqb_spec k' k) as [-> | Hk].
  - intros [= ->]. now left.
  - intros E. right. now apply IH.
Qed.


Lemma counter_get_set_same (k : string) (v : Z) (d : dict Z) :
  counter_get k (dict_set k v d) = v.
Proof. unfold counter_get. now rewrite dict_get_set_same. Qed.

Lemma counter_get_set_other (k k0 : string) (v : Z) (d : dict Z) :
  k <> k0 -> counter_get k0 (dict_set k v d) = counter_get k0 d.
Proof. intros Hne. unfold counter_get. now rewrite dict_get_set_other. Qed.

Lemma sum_values_set (k : string) (v : Z) (d : dict Z) :
  sum_values (dict_set k v d) = (sum_values d - counter_get k d + v)%Z.
Proof.
  unfold counter_get.
  induction d as [| [k' v'] d IH]; simpl; [lia |].
  destruct (String.eqb_spec k' k) as [-> | Hk]; simpl; lia.
Qed.

Lemma dict_get_del {V : Type} (k k0 : string) (d : dict V) :
  dict_get k0 (dict_del k d)
  = if String.eqb k0 k then None else dict_get k0 d.
Proof.
  unfold dict_del.
  induction d as [| [k' v'] d IH]; simpl.
  - now destruct (String.eqb k0 k).
  - destruct (String.eqb_spec k' k) as [-> | Hk]; simpl.
    + rewrite IH. destruct (String.eqb_spec k0 k) as [-> | Hk0]; [reflexivity |].
      destruct (String.eqb_spec k k0); [congruence | reflexivity].
    + destruct (String.eqb_spec k' k0) as [-> | Hk0].
      * destruct (String.eqb_spec k0 k); [contradiction | reflexivity].
      * exact IH.
Qed.

Lemma dict_get_map {V W : Type} (f : V -> W) (k : string) (d : dict V) :
  dict_get k (map (fun kv => (fst kv, f (snd kv))) d)
  = option_map f (dict_get k d).
Proof.
  induction d as [| [k' v'] d IH]; simpl; [reflexivity |].
  destruct (String.eqb k' k); [reflexivity | exact IH].
Qed.

(** ** Stripes *)

Lemma increment_counter (x k : string) (t : dict Z) :
  counter_get k (increment x t)
  = (counter_get k t + if String.eqb x k then 1 else 0)%Z.
Proof.
  unfold increment.
  destruct (String.eqb_spec x k) as [-> | Hne].
  - unfold counter_get at 2.
    destruct (dict_get k t); rewrite counter_get_set_same; lia.
  - destruct (dict_get x t); rewrite counter_get_set_other by assumption; lia.
Qed.

Lemma increment_sum (x : string) (t : dict Z) :
  sum_values (increment x t) = (sum_values t + 1)%Z.
Proof.
  unfold increment. destruct (dict_get x t) eqn:E; rewrite sum_values_set;
    unfold counter_get; rewrite E; lia.
Qed.

Lemma increment_NoDup (x : string) (t : dict Z) :
  NoDup (keys t) -> NoDup (keys (increment x t)).
Proof.
  intros Ht. unfold increment.
  destruct (dict_get x t); now apply dict_set_NoDup.
Qed.

Lemma increment_positive (x : string) (t : dict Z) :
  Forall (fun kv => (1 <= snd kv)%Z) t ->
  Forall (fun kv => (1 <= snd kv)%Z) (increment x t).
Proof.
  intros Ht. unfold increment.
  destruct (dict_get x t) as [v |] eqn:E.
  - apply dict_set_Forall; [| assumption]. simpl.
    apply dict_get_In in E. rewrite Forall_forall in Ht.
    specialize (Ht _ E). simpl in Ht. lia.
  - apply dict_set_Forall; [simpl; lia | assumption].
Qed.

Lemma bigrams_cons (w x a b : string) (l : list string) :
  bigrams w x (a :: b :: l)
  = ((if String.eqb a w && String.eqb b x then 1 else 0)
     + bigrams w x (b :: l))%Z.
Proof. reflexivity. Qed.

Lemma followed_cons (w a b : string) (l : list string) :
  followed w (a :: b :: l)
  = ((if String.eqb a w then 1 else 0) + followed w (b :: l))%Z.
Proof. reflexivity. Qed.

Lemma scan_counter (w k : string) :
  forall (rest : list string) (prev : string) (t : dict Z),
    counter_get k (scan_neighbours w prev rest t)
    = (counter_get k t + bigrams w k (prev :: rest))%Z.
Proof.
  induction rest as [| x rest IH]; intros prev t.
  - simpl. lia.
  - cbn [scan_neighbours]. rewrite IH, (bigrams_cons w k prev x).
    destruct (String.eqb prev w); cbn [andb].
    + rewrite increment_counter. lia.
    + lia.
Qed.

Lemma scan_sum (w : string) :
  forall (rest : list string) (prev : string) (t : dict Z),
    sum_values (scan_neighbours w prev rest t)
    = (sum_values t + followed w (prev :: rest))%Z.
Proof.
  induction rest as [| x rest IH]; intros prev t.
  - simpl. lia.
  - cbn [scan_neighbours]. rewrite IH, (followed_cons w prev x).
    destruct (String.eqb prev w).
    + rewrite increment_sum. lia.
    + lia.
Qed.

Lemma scan_NoDup (w : string) :
  forall (rest : list string) (prev : string) (t : dict Z),
    NoDup (keys t) -> NoDup (keys (scan_neighbours w prev rest t)).
Proof.
  induction rest as [| x rest IH]; intros prev t Ht; simpl; [assumption |].
  apply IH. destruct (String.eqb prev w); [now apply increment_NoDup | assumption].
Qed.

Lemma scan_positive (w : string) :
  forall (rest : list string) (prev : string) (t : dict Z),
    Forall (fun kv => (1 <= snd kv)%Z) t ->
    Forall (fun kv => (1 <= snd kv)%Z) (scan_neighbours w prev rest t).
Proof.
  induction rest as [| x rest IH]; intros prev t Ht; simpl; [assumption |].
  apply IH. destruct (String.eqb prev w); [now apply increment_positive | assumption].
Qed.

Lemma dict_mem_set {V : Type} (k k0 : string) (v : V) (d : dict V) :
  dict_mem k0 (dict_set k v d) = String.eqb k k0 || dict_mem k0 d.
Proof.
  unfold dict_mem.
  destruct (String.eqb_spec k k0) as [-> | Hne].
  - now rewrite dict_get_set_same.
  - now rewrite dict_get_set_other.
Qed.

Lemma stripes_for_cons (w a : string) (s : dict Z)
    (l : list (string * dict Z)) :
  stripes_for w ((a, s) :: l)
  = if String.eqb a w then s :: stripes_for w l else stripes_for w l.
Proof. unfold stripes_for. simpl. now destruct (String.eqb a w). Qed.

Lemma stripes_for_app (w : string) (l1 l2 : list (string * dict Z)) :
  stripes_for w (l1 ++ l2) = stripes_for w l1 ++ stripes_for w l2.
Proof. unfold stripes_for. now rewrite filter_app, map_app. Qed.

Lemma stripes_for_In (w : string) (s : dict Z) (l : list (string * dict Z)) :
  In s (stripes_for w l) <-> In (w, s) l.
Proof.
  unfold stripes_for. rewrite in_map_iff. split.
  - intros ([k s'] & <- & Hin). apply filter_In in Hin as [Hin Hk].
    simpl in Hk. apply String.eqb_eq in Hk. now subst.
  - intros Hin. exists (w, s). split; [reflexivity |].
    apply filter_In. split; [assumption | apply String.eqb_refl].
Qed.

(** Under a key already processed the mapper yields minimal stripes only. *)
Lemma stripes_for_processed (w : string) :
  forall (tokens : list string) (processed : dict Z),
    dict_mem w processed = true ->
    stripes_for w (stripes_from processed tokens)
    = repeat [(DUMCHAR, 1%Z)] (count_occ string_dec tokens w).
Proof.
  induction tokens as [| a tokens IH]; intros processed Hw; [reflexivity |].
  cbn [stripes_from].
  destruct (string_dec a w) as [-> | Hne].
  - rewrite Hw. cbn [negb]. rewrite stripes_for_cons, String.eqb_refl.
    rewrite count_occ_cons_eq by reflexivity. simpl. now rewrite IH.
  - rewrite count_occ_cons_neq by assumption.
    destruct (negb (dict_mem a processed)); rewrite stripes_for_cons;
      (destruct (String.eqb_spec a w); [contradiction |]); apply IH.
    + rewrite dict_mem_set, Hw. apply orb_true_r.
    + assumption.
Qed.

(** Under a fresh key the first occurrence yields the scanned stripe and every
    later occurrence a minimal one. *)
Lemma stripes_for_fresh (w : string) :
  forall (tokens : list string) (processed : dict Z),
    dict_mem w processed = false ->
    (~ In w tokens /\ stripes_for w (stripes_from processed tokens) = [])
    \/ (exists pre rest,
          tokens = pre ++ w :: rest /\ ~ In w pre
          /\ stripes_for w (stripes_from processed tokens)
             = scan_neighbours w w rest [(DUMCHAR, 1%Z)]
                 :: repeat [(DUMCHAR, 1%Z)] (count_occ string_dec rest w)).
Proof.
  induction tokens as [| a tokens IH]; intros processed Hw.
  - left. split; [tauto | reflexivity].
  - cbn [stripes_from].
    destruct (string_dec a w) as [-> | Hne].
    + right. exists [], tokens. split; [reflexivity |]. split; [tauto |].
      rewrite Hw. cbn [negb]. rewrite stripes_for_cons, String.eqb_refl.
      f_equal. apply stripes_for_processed.
      rewrite dict_mem_set, String.eqb_refl. reflexivity.
    + assert (Hstep : forall processed',
                 dict_mem w processed' = false ->
                 forall s,
                 (~ In w (a :: tokens)
                  /\ stripes_for w ((a, s) :: stripes_from processed' tokens) = [])
                 \/ (exists pre rest,
                       a :: tokens = pre ++ w :: rest /\ ~ In w pre
                       /\ stripes_for w ((a, s) :: stripes_from processed' tokens)
                          = scan_neighbours w w rest [(DUMCHAR, 1%Z)]
                              :: repeat [(DUMCHAR, 1%Z)]
                                   (count_occ string_dec rest w))).
      { intros processed' Hw' s. rewrite stripes_for_cons.
        destruct (String.eqb_spec a w); [contradiction |].
        destruct (IH processed' Hw') as [[Hno E] | (pre & rest & Et & Hpre & E)].
        - left. split; [| assumption]. intros [Ha | Hin]; auto.
        - right. exists (a :: pre), rest. subst tokens.
          split; [reflexivity |]. split; [| assumption].
          intros [Ha | Hin]; auto. }
      destruct (negb (dict_mem a processed)); apply Hstep; [| assumption].
      rewrite dict_mem_set, Hw.
      destruct (String.eqb_spec a w); [contradiction | reflexivity].
Qed.

(** ** Counting *)

Lemma sum_over_cons (f : dict Z -> Z) (s : dict Z) (l : list (dict Z)) :
  sum_over f (s :: l) = (f s + sum_over f l)%Z.
Proof. reflexivity. Qed.

Lemma sum_over_app (f : dict Z -> Z) (l1 l2 : list (dict Z)) :
  sum_over f (l1 ++ l2) = (sum_over f l1 + sum_over f l2)%Z.
Proof. induction l1 as [| s l1 IH]; simpl; [reflexivity | rewrite IH; lia]. Qed.

Lemma sum_over_repeat (f : dict Z -> Z) (s : dict Z) (n : nat) :
  sum_over f (repeat s n) = (Z.of_nat n * f s)%Z.
Proof.
  induction n as [| n IH]; [reflexivity |].
  cbn [repeat]. rewrite sum_over_cons, IH. lia.
Qed.

Lemma sum_over_Permutation (f : dict Z -> Z) (l1 l2 : list (dict Z)) :
  Permutation l1 l2 -> sum_over f l1 = sum_over f l2.
Proof. induction 1; simpl in *; lia. Qed.

Lemma sum_over_ext (f g : dict Z -> Z) (l : list (dict Z)) :
  Forall (fun s => f s = g s) l -> sum_over f l = sum_over g l.
Proof. induction 1 as [| s l Hs _ IH]; simpl; [reflexivity | rewrite Hs, IH; reflexivity]. Qed.

Lemma bigrams_skip (w x a : string) (l : list string) :
  a <> w -> bigrams w x (a :: l) = bigrams w x l.
Proof.
  intros Hne. destruct l as [| b l]; [reflexivity |].
  rewrite bigrams_cons.
  destruct (String.eqb_spec a w); [contradiction | reflexivity].
Qed.

Lemma followed_skip (w a : string) (l : list string) :
  a <> w -> followed w (a :: l) = followed w l.
Proof.
  intros Hne. destruct l as [| b l]; [reflexivity |].
  rewrite followed_cons.
  destruct (String.eqb_spec a w); [contradiction | reflexivity].
Qed.

Lemma bigrams_prefix (w x : string) (pre l : list string) :
  ~ In w pre -> bigrams w x (pre ++ l) = bigrams w x l.
Proof.
  induction pre as [| a pre IH]; intros Hno; [reflexivity |].
  simpl app. rewrite bigrams_skip by (intros ->; apply Hno; now left).
  apply IH. intros Hin. apply Hno. now right.
Qed.

Lemma followed_prefix (w : string) (pre l : list string) :
  ~ In w pre -> followed w (pre ++ l) = followed w l.
Proof.
  induction pre as [| a pre IH]; intros Hno; [reflexivity |].
  simpl app. rewrite followed_skip by (intros ->; apply Hno; now left).
  apply IH. intros Hin. apply Hno. now right.
Qed.

Lemma occurrences_prefix (w : string) (pre rest : list string) :
  ~ In w pre ->
  occurrences w (pre ++ w :: rest) = (1 + occurrences w rest)%Z.
Proof.
  intros Hno. unfold occurrences.
  rewrite count_occ_app, count_occ_cons_eq by reflexivity.
  apply (count_occ_not_In string_dec) in Hno. rewrite Hno. lia.
Qed.

Lemma bigrams_absent (w x : string) (l : list string) :
  ~ In w l -> bigrams w x l = 0%Z.
Proof.
  intros Hno. rewrite <- (app_nil_r l). now rewrite bigrams_prefix.
Qed.

Lemma followed_absent (w : string) (l : list string) :
  ~ In w l -> followed w l = 0%Z.
Proof.
  intros Hno. rewrite <- (app_nil_r l). now rewrite followed_prefix.
Qed.

Lemma bigrams_nonneg (w x : string) (l : list string) :
  (0 <= bigrams w x l)%Z.
Proof.
  induction l as [| a [| b l] IH]; try (simpl; lia).
  rewrite bigrams_cons. destruct (String.eqb a w && String.eqb b x); lia.
Qed.

Lemma bigrams_absent_right (w x : string) (l : list string) :
  ~ In x l -> bigrams w x l = 0%Z.
Proof.
  induction l as [| a [| b l] IH]; intros Hno; try reflexivity.
  rewrite bigrams_cons, IH by (intros Hin; apply Hno; now right).
  destruct (String.eqb_spec b x) as [-> | Hne].
  - exfalso. apply Hno. right. now left.
  - now rewrite andb_false_r.
Qed.



(** ** What one record contributes under a key *)

Lemma record_counter (w k : string) (tokens : list string) :
  sum_over (counter_get k) (stripes_for w (stripes_from [] tokens))
  = ((if String.eqb DUMCHAR k then occurrences w tokens else 0)
     + bigrams w k tokens)%Z.
Proof.
  destruct (stripes_for_fresh w tokens [] eq_refl)
    as [[Hno E] | (pre & rest & Et & Hpre & E)]; rewrite E.
  - rewrite bigrams_absent by assumption. unfold occurrences.
    apply (count_occ_not_In string_dec) in Hno. rewrite Hno.
    cbn [sum_over fold_right Z.of_nat]. now destruct (String.eqb DUMCHAR k).
  - subst tokens.
    rewrite bigrams_prefix, occurrences_prefix by assumption.
    rewrite sum_over_cons, sum_over_repeat, scan_counter.
    unfold occurrences, counter_get at 1 2. cbn [dict_get].
    destruct (String.eqb DUMCHAR k); lia.
Qed.

Lemma record_sum (w : string) (tokens : list string) :
  sum_over sum_values (stripes_for w (stripes_from [] tokens))
  = (occurrences w tokens + followed w tokens)%Z.
Proof.
  destruct (stripes_for_fresh w tokens [] eq_refl)
    as [[Hno E] | (pre & rest & Et & Hpre & E)]; rewrite E.
  - rewrite followed_absent by assumption. unfold occurrences.
    apply (count_occ_not_In string_dec) in Hno. now rewrite Hno.
  - subst tokens.
    rewrite followed_prefix, occurrences_prefix by assumption.
    rewrite sum_over_cons, sum_over_repeat, scan_sum.
    unfold occurrences. simpl sum_values. lia.
Qed.

(** ** Stripes the mapper yields *)

Lemma minimal_well_formed : well_formed [(DUMCHAR, 1%Z)].
Proof.
  repeat split.
  - simpl. constructor; [tauto | constructor].
  - constructor; [simpl; lia | constructor].
  - reflexivity.
Qed.

Lemma scanned_well_formed (w : string) (rest : list string) :
  well_formed (scan_neighbours w w rest [(DUMCHAR, 1%Z)]).
Proof.
  destruct minimal_well_formed as (Hnd & Hpos & _).
  repeat split.
  - now apply scan_NoDup.
  - now apply scan_positive.
  - rewrite scan_counter.
    pose proof (bigrams_nonneg w DUMCHAR (w :: rest)).
    change (counter_get DUMCHAR [(DUMCHAR, 1%Z)]) with 1%Z. lia.
Qed.

Lemma stripes_from_well_formed :
  forall (tokens : list string) (processed : dict Z) (k : string) (s : dict Z),
    In (k, s) (stripes_from processed tokens) -> well_formed s.
Proof.
  induction tokens as [| a tokens IH]; intros processed k s; simpl; [tauto |].
  destruct (negb (dict_mem a processed)); intros [E | Hin];
    try (now apply IH in Hin); injection E as _ <-.
  - apply scanned_well_formed.
  - apply minimal_well_formed.
Qed.

Lemma mapper_produced_well_formed (strip : dict Z) :
  mapper_produced strip -> well_formed strip.
Proof.
  intros (line & yielded & key & E & Hin).
  apply mapper_Ok_inv in E as (tokens & _ & _ & ->).
  now apply stripes_from_well_formed in Hin.
Qed.

(** ** The reducer's merge *)

Lemma reducer_strip_concat :
  forall (strips : list (dict Z)) (r : dict Z) (tw : option Z),
    fold_left reducer_strip strips (r, tw)
    = (fold_left reducer_add (List.concat strips) r,
       match strips with
       | [] => tw
       | _ => Some (counter_get DUMCHAR
                      (fold_left reducer_add (List.concat strips) r))
       end).
Proof.
  induction strips as [| s strips IH]; intros r tw; [reflexivity |].
  cbn [fold_left List.concat]. unfold reducer_strip at 2. cbn [fst].
  rewrite IH, fold_left_app.
  destruct strips; reflexivity.
Qed.

Lemma merged_counts_concat (strips : list (dict Z)) :
  merged_counts strips = fold_left reducer_add (List.concat strips) [].
Proof.
  unfold merged_counts, reducer_merge. now rewrite reducer_strip_concat.
Qed.

Lemma reducer_merge_total (strips : list (dict Z)) :
  reducer_merge strips
  = (merged_counts strips,
     match strips with
     | [] => None
     | _ => Some (counter_get DUMCHAR (merged_counts strips))
     end).
Proof.
  rewrite merged_counts_concat. unfold reducer_merge.
  now rewrite reducer_strip_concat.
Qed.

Lemma reducer_add_get (k : string) :
  forall (items r : dict Z),
    dict_get k (fold_left reducer_add items r)
    = match dict_get k r with
      | Some v => Some (v + entry_sum k items)%Z
      | None =>
          if existsb (fun kv => String.eqb (fst kv) k) items
          then Some (entry_sum k items)
          else None
      end.
Proof.
  induction items as [| [a v] items IH]; intros r.
  - simpl. destruct (dict_get k r); [f_equal; lia | reflexivity].
  - cbn [fold_left existsb entry_sum fold_right fst snd]. rewrite IH.
    unfold reducer_add.
    fold (entry_sum k items).
    destruct (String.eqb_spec a k) as [-> | Hne].
    + rewrite dict_get_set_same. unfold counter_get.
      destruct (dict_get k r); cbn [orb]; f_equal; lia.
    + rewrite dict_get_set_other by assumption. reflexivity.
Qed.

Lemma entry_sum_Permutation (k : string) (l1 l2 : dict Z) :
  Permutation l1 l2 -> entry_sum k l1 = entry_sum k l2.
Proof.
  induction 1 as [| x l1 l2 _ IH | x y l | l1 l2 l3 _ IH1 _ IH2]; simpl.
  - reflexivity.
  - fold (entry_sum k l1). fold (entry_sum k l2). now rewrite IH.
  - destruct (String.eqb (fst x) k), (String.eqb (fst y) k); lia.
  - congruence.
Qed.

Lemma existsb_Permutation {A : Type} (f : A -> bool) (l1 l2 : list A) :
  Permutation l1 l2 -> existsb f l1 = existsb f l2.
Proof.
  induction 1 as [| x l1 l2 _ IH | x y l | l1 l2 l3 _ IH1 _ IH2]; simpl.
  - reflexivity.
  - now rewrite IH.
  - destruct (f x), (f y); reflexivity.
  - congruence.
Qed.

Lemma concat_Permutation {A : Type} (l1 l2 : list (list A)) :
  Permutation l1 l2 -> Permutation (List.concat l1) (List.concat l2).
Proof.
  induction 1 as [| x l1 l2 _ IH | x y l | l1 l2 l3 _ IH1 _ IH2]; simpl.
  - constructor.
  - now apply Permutation_app_head.
  - rewrite !app_assoc. apply Permutation_app_tail, Permutation_app_comm.
  - now transitivity (List.concat l2).
Qed.

(** The merged counts are the same mapping whatever the arrival order. *)
Lemma merged_counts_Permutation (strips strips' : list (dict Z)) (k : string) :
  Permutation strips strips' ->
  dict_get k (merged_counts strips) = dict_get k (merged_counts strips').
Proof.
  intros Hp. apply concat_Permutation in Hp.
  rewrite !merged_counts_concat, !reducer_add_get. cbn [dict_get].
  now rewrite (entry_sum_Permutation k _ _ Hp), (existsb_Permutation _ _ _ Hp).
Qed.

Lemma entry_sum_absent (k : string) (s : dict Z) :
  ~ In k (keys s) -> entry_sum k s = 0%Z.
Proof.
  induction s as [| [a v] s IH]; intros Hno; [reflexivity |].
  cbn [entry_sum fold_right fst snd]. fold (entry_sum k s).
  destruct (String.eqb_spec a k) as [-> | Hne].
  - exfalso. apply Hno. now left.
  - apply IH. intros Hin. apply Hno. now right.
Qed.

Lemma entry_sum_counter (k : string) (s : dict Z) :
  NoDup (keys s) -> entry_sum k s = counter_get k s.
Proof.
  induction s as [| [a v] s IH]; intros Hnd; [reflexivity |].
  inversion Hnd as [| ? ? Ha Hnd']; subst.
  cbn [entry_sum fold_right fst snd]. fold (entry_sum k s).
  unfold counter_get. cbn [dict_get].
  destruct (String.eqb_spec a k) as [-> | Hne].
  - rewrite entry_sum_absent by assumption. lia.
  - now apply IH.
Qed.

Lemma entry_sum_concat (k : string) (strips : list (dict Z)) :
  entry_sum k (List.concat strips) = sum_over (entry_sum k) strips.
Proof.
  induction strips as [| s strips IH]; [reflexivity |].
  rewrite sum_over_cons, <- IH. cbn [List.concat].
  induction s as [| [a v] s IHs]; [simpl; lia |].
  cbn [app entry_sum fold_right fst snd].
  fold (entry_sum k (s ++ List.concat strips)). fold (entry_sum k s).
  destruct (String.eqb a k); lia.
Qed.

Lemma merged_counter_entries (k : string) (strips : list (dict Z)) :
  counter_get k (merged_counts strips) = entry_sum k (List.concat strips).
Proof.
  unfold counter_get.
  rewrite merged_counts_concat, reducer_add_get. cbn [dict_get].
  destruct (existsb _ _) eqn:E; [reflexivity |].
  symmetry. apply entry_sum_absent.
  intros Hin. apply in_map_iff in Hin as (kv & Ek & Hin).
  assert (Hex : existsb (fun kv => String.eqb (fst kv) k)
                  (List.concat strips) = true).
  { apply existsb_exists. exists kv. split; [assumption |].
    rewrite Ek. apply String.eqb_refl. }
  congruence.
Qed.

Lemma merged_counter (k : string) (strips : list (dict Z)) :
  Forall (fun s => NoDup (keys s)) strips ->
  counter_get k (merged_counts strips) = sum_over (counter_get k) strips.
Proof.
  intros Hnd. rewrite merged_counter_entries, entry_sum_concat.
  apply sum_over_ext.
  eapply Forall_impl; [| exact Hnd]. intros s. apply entry_sum_counter.
Qed.

Lemma counter_get_nonneg (k : string) (d : dict Z) :
  Forall (fun kv => (1 <= snd kv)%Z) d -> (0 <= counter_get k d)%Z.
Proof.
  intros Hd. unfold counter_get.
  destruct (dict_get k d) as [v |] eqn:E; [| lia].
  apply dict_get_In in E. rewrite Forall_forall in Hd.
  specialize (Hd _ E). simpl in Hd. lia.
Qed.

Lemma reducer_add_invariants :
  forall (items r : dict Z),
    Forall (fun kv => (1 <= snd kv)%Z) items ->
    NoDup (keys r) /\ Forall (fun kv => (1 <= snd kv)%Z) r ->
    NoDup (keys (fold_left reducer_add items r))
    /\ Forall (fun kv => (1 <= snd kv)%Z) (fold_left reducer_add items r).
Proof.
  induction items as [| [a v] items IH]; intros r Hitems [Hnd Hpos];
    [now split |].
  inversion Hitems as [| ? ? Hv Hitems']; subst. simpl in Hv.
  cbn [fold_left]. apply IH; [assumption |]. unfold reducer_add. split.
  - now apply dict_set_NoDup.
  - apply dict_set_Forall; [| assumption]. simpl.
    pose proof (counter_get_nonneg a r Hpos). lia.
Qed.

Lemma reducer_add_sum :
  forall (items r : dict Z),
    sum_values (fold_left reducer_add items r)
    = (sum_values r + sum_values items)%Z.
Proof.
  induction items as [| [a v] items IH]; intros r; [simpl; lia |].
  cbn [fold_left]. rewrite IH. unfold reducer_add.
  rewrite sum_values_set. simpl. lia.
Qed.

Lemma sum_values_concat (strips : list (dict Z)) :
  sum_values (List.concat strips) = sum_over sum_values strips.
Proof.
  induction strips as [| s strips IH]; [reflexivity |].
  rewrite sum_over_cons, <- IH. cbn [List.concat].
  induction s as [| [a v] s IHs]; [simpl; lia |].
  simpl in *. lia.
Qed.

Lemma merged_sum (strips : list (dict Z)) :
  sum_values (merged_counts strips) = sum_over sum_values strips.
Proof.
  rewrite merged_counts_concat, reducer_add_sum, sum_values_concat.
  simpl. lia.
Qed.

Lemma merged_invariants (strips : list (dict Z)) :
  Forall well_formed strips ->
  NoDup (keys (merged_counts strips))
  /\ Forall (fun kv => (1 <= snd kv)%Z) (merged_counts strips).
Proof.
  intros Hwf. rewrite merged_counts_concat.
  apply reducer_add_invariants.
  - apply Forall_concat. eapply Forall_impl; [| exact Hwf].
    now intros s (_ & Hpos & _).
  - split; constructor.
Qed.

Lemma merged_total_positive (strips : list (dict Z)) :
  strips <> [] -> Forall well_formed strips ->
  (Z.of_nat (List.length strips) <= counter_get DUMCHAR (merged_counts strips))%Z.
Proof.
  intros _ Hwf. rewrite merged_counter.
  - induction Hwf as [| s strips (_ & _ & Hs) _ IH]; [simpl; lia |].
    rewrite sum_over_cons. cbn [List.length]. lia.
  - eapply Forall_impl; [| exact Hwf]. now intros s (Hnd & _).
Qed.

Lemma sum_values_del (k : string) (d : dict Z) :
  NoDup (keys d) ->
  sum_values (dict_del k d) = (sum_values d - counter_get k d)%Z.
Proof.
  unfold dict_del, counter_get.
  induction d as [| [a v] d IH]; intros Hnd; [reflexivity |].
  inversion Hnd as [| ? ? Ha Hnd']; subst.
  specialize (IH Hnd'). cbn [filter fst dict_get].
  destruct (String.eqb_spec a k) as [-> | Hne]; cbn [negb sum_values fold_right snd].
  - fold (sum_values (filter (fun kv => negb (String.eqb (fst kv) k)) d)).
    fold (sum_values d). rewrite IH.
    apply dict_get_None_keys in Ha. rewrite Ha. lia.
  - fold (sum_values (filter (fun kv => negb (String.eqb (fst kv) k)) d)).
    fold (sum_values d). rewrite IH. lia.
Qed.

Lemma dict_del_map {V W : Type} (f : V -> W) (k : string) (d : dict V) :
  dict_del k (map (fun kv => (fst kv, f (snd kv))) d)
  = map (fun kv => (fst kv, f (snd kv))) (dict_del k d).
Proof.
  unfold dict_del. induction d as [| [a v] d IH]; [reflexivity |].
  simpl. destruct (String.eqb a k); simpl; now rewrite IH.
Qed.

Section ReducerOutcome.
Context {F : Type} `{PyFloat F}.

(** With a non-zero SELF total the reducer divides every merged count by
    it and drops the SELF entry. *)
Lemma reducer_Ok (word : string) (strips : list (dict Z)) :
  strips <> [] ->
  counter_get DUMCHAR (merged_counts strips) <> 0%Z ->
  reducer word strips
  = Ok [(word,
         map (fun kv =>
                (fst kv,
                 true_div (snd kv) (counter_get DUMCHAR (merged_counts strips))))
             (dict_del DUMCHAR (merged_counts strips)))].
Proof.
  intros Hne Ht. unfold reducer. rewrite reducer_merge_total.
  destruct strips as [| s strips]; [contradiction |].
  set (t := counter_get DUMCHAR (merged_counts (s :: strips))) in *.
  rewrite (mapM_Ok_map _ (fun kv => (fst kv, true_div (snd kv) t))).
  - cbn [bind]. now rewrite (dict_del_map (fun v => true_div v t)).
  - intros kv _. unfold reducer_divide.
    destruct (Z.eqb_spec t 0); [contradiction | reflexivity].
Qed.

(** With a zero SELF total and something merged, the division raises. *)
Lemma reducer_zero (word : string) (strips : list (dict Z)) :
  merged_counts strips <> [] ->
  counter_get DUMCHAR (merged_counts strips) = 0%Z ->
  reducer word strips = Raise ZeroDivisionError.
Proof.
  intros Hne Ht. unfold reducer. rewrite reducer_merge_total.
  destruct strips as [| s strips]; [now contradiction Hne |].
  destruct (merged_counts (s :: strips)) as [| kv d] eqn:E;
    [contradiction |].
  cbn [mapM]. unfold reducer_divide at 1. rewrite Ht. reflexivity.
Qed.

(** With nothing merged there is nothing to divide. *)
Lemma reducer_empty (word : string) (strips : list (dict Z)) :
  merged_counts strips = [] ->
  reducer word strips = Ok [(word, [])].
Proof.
  intros E. unfold reducer. rewrite reducer_merge_total, E. reflexivity.
Qed.
End ReducerOutcome.

(** ** The top-ten reducer *)

Section TopTen.
Context {F : Type} `{PyFloat F}.

Lemma insert_desc_Permutation (x : string * F) (l : list (string * F)) :
  Permutation (insert_desc x l) (x :: l).
Proof.
  induction l as [| y l IH]; simpl; [reflexivity |].
  destruct (float_lt (snd x) (snd y)); [| reflexivity].
  rewrite IH. apply perm_swap.
Qed.

Lemma sorted_desc_Permutation (d : dict F) :
  Permutation (sorted_desc d) d.
Proof.
  induction d as [| x d IH]; simpl; [reflexivity |].
  rewrite insert_desc_Permutation. now apply perm_skip.
Qed.

Lemma sorted_desc_length (d : dict F) :
  List.length (sorted_desc d) = List.length d.
Proof. apply Permutation_length, sorted_desc_Permutation. Qed.

Lemma topten_scan_last (probs : list (dict F)) (d : dict F) :
  topten_scan (probs ++ [d])
  = Some (sorted_desc d, Z.of_nat (List.length (sorted_desc d))).
Proof. unfold topten_scan. now rewrite fold_left_app. Qed.

(** Reading the first [k] items by index, numbering them from [a + 1]. *)
Lemma mapM_getitem_ranks :
  forall (k a : nat) (pre suf : list (string * F)),
    List.length pre = a -> k <= List.length suf ->
    mapM (fun rank =>
            entry <- getitem (pre ++ suf) rank ;;
            Ok ((Z.of_nat rank + 1)%Z, entry))
         (seq a k)
    = Ok (combine (map (fun rank => (Z.of_nat rank + 1)%Z) (seq a k))
                  (firstn k suf)).
Proof.
  induction k as [| k IH]; intros a pre suf Ha Hk; [reflexivity |].
  destruct suf as [| x suf]; [simpl in Hk; lia |].
  cbn [seq mapM map firstn combine].
  unfold getitem at 1. rewrite <- Ha, nth_error_app2, Nat.sub_diag by lia.
  cbn [nth_error bind].
  replace (pre ++ x :: suf) with ((pre ++ [x]) ++ suf)
    by (rewrite <- app_assoc; reflexivity).
  rewrite (IH (S (List.length pre)) (pre ++ [x]) suf).
  - reflexivity.
  - rewrite length_app. simpl. lia.
  - simpl in Hk. lia.
Qed.

(** Whatever came first, the last distribution alone is ranked. *)
Lemma reducer_topten_last (probs : list (dict F)) (d : dict F) :
  reducer_topten TARGET_WORD (probs ++ [d]) = Ok (ranked d).
Proof.
  unfold reducer_topten. rewrite String.eqb_refl, topten_scan_last.
  unfold ranked.
  set (n := List.length (sorted_desc d)).
  assert (Hk : Z.to_nat (if (10 <? Z.of_nat n)%Z then 10%Z else Z.of_nat n)
               = Nat.min 10 n).
  { destruct (Z.ltb_spec 10 (Z.of_nat n)); lia. }
  rewrite Hk.
  apply (mapM_getitem_ranks (Nat.min 10 n) 0 [] (sorted_desc d)).
  - reflexivity.
  - subst n. lia.
Qed.

Lemma reducer_topten_other (word : string) (probs : list (dict F)) :
  word <> TARGET_WORD -> reducer_topten word probs = Ok [].
Proof.
  intros Hne. unfold reducer_topten.
  destruct (String.eqb_spec word TARGET_WORD); [contradiction | reflexivity].
Qed.

Lemma select_stage_other (groups : list (string * list (dict F))) :
  Forall (fun group => fst group <> TARGET_WORD) groups ->
  select_stage groups = Ok [].
Proof.
  intros Hg. unfold select_stage.
  rewrite (mapM_Ok_map _ (fun _ => [])).
  - cbn [bind]. f_equal. clear Hg. induction groups as [| g groups IH]; [reflexivity | exact IH].
  - intros group Hin. rewrite Forall_forall in Hg.
    now apply reducer_topten_other, Hg.
Qed.
End TopTen.

(** Sorting by exact probabilities. *)

Lemma float_lt_exact (x y : Q) :
  float_lt x y = true <-> (x < y)%Q.
Proof.
  simpl. rewrite negb_true_iff. split.
  - intros E. apply Qnot_le_lt. intros Hle.
    apply Qle_bool_iff in Hle. congruence.
  - intros Hlt. destruct (Qle_bool y x) eqn:E; [| reflexivity].
    apply Qle_bool_iff in E. now apply Qlt_not_le in Hlt.
Qed.

Lemma insert_desc_sorted (x : string * Q) (l : list (string * Q)) :
  StronglySorted (fun a b => (snd b <= snd a)%Q) l ->
  StronglySorted (fun a b => (snd b <= snd a)%Q) (insert_desc x l).
Proof.
  induction 1 as [| y l Hl IH Hy]; cbn [insert_desc].
  - constructor; constructor.
  - destruct (float_lt (snd x) (snd y)) eqn:E.
    + constructor; [assumption |].
      rewrite insert_desc_Permutation.
      constructor; [| assumption].
      apply float_lt_exact in E. now apply Qlt_le_weak.
    + assert (Hle : (snd y <= snd x)%Q).
      { apply Qnot_lt_le. intros Hlt. apply float_lt_exact in Hlt. congruence. }
      constructor; [now constructor |].
      constructor; [assumption |].
      eapply Forall_impl; [| exact Hy].
      intros b Hb. simpl in *. now apply Qle_trans with (snd y).
Qed.

Lemma sorted_desc_sorted (d : dict Q) :
  StronglySorted (fun a b => (snd b <= snd a)%Q) (sorted_desc d).
Proof.
  induction d as [| x d IH]; [constructor |].
  cbn [sorted_desc fold_right]. now apply insert_desc_sorted.
Qed.

(** Stability: among the items of one value the order of the input stays. *)
Lemma insert_desc_stable (q : Q) (x : string * Q) (l : list (string * Q)) :
  filter (fun e => Qeq_bool (snd e) q) (insert_desc x l)
  = filter (fun e => Qeq_bool (snd e) q) (x :: l).
Proof.
  induction l as [| y l IH]; [reflexivity |].
  cbn [insert_desc].
  destruct (float_lt (snd x) (snd y)) eqn:E; [| reflexivity].
  cbn [filter] in *. rewrite IH.
  destruct (Qeq_bool (snd x) q) eqn:Ex, (Qeq_bool (snd y) q) eqn:Ey;
    try reflexivity.
  exfalso. apply float_lt_exact in E.
  apply Qeq_bool_iff in Ex, Ey. rewrite Ex, Ey in E.
  now apply Qlt_irrefl in E.
Qed.

Lemma sorted_desc_stable (q : Q) (d : dict Q) :
  filter (fun e => Qeq_bool (snd e) q) (sorted_desc d)
  = filter (fun e => Qeq_bool (snd e) q) d.
Proof.
  induction d as [| x d IH]; [reflexivity |].
  cbn [sorted_desc fold_right]. fold (sorted_desc d).
  rewrite insert_desc_stable. cbn [filter]. now rewrite IH.
Qed.

(** ** The map stage *)

Lemma stripes_from_keys :
  forall (tokens : list string) (processed : dict Z) (k : string) (s : dict Z),
    In (k, s) (stripes_from processed tokens) -> In k tokens.
Proof.
  induction tokens as [| a tokens IH]; intros processed k s; simpl; [tauto |].
  destruct (negb (dict_mem a processed)); intros [E | Hin];
    try (right; now apply IH in Hin); injection E as -> _; now left.
Qed.

(** A successful map stage has tokenized every record, and yields the
    stripes of the records one after the other. *)
Lemma map_stage_records :
  forall (corpus : list string) (emitted : list (string * dict Z)),
    map_stage corpus = Ok emitted ->
    exists records,
      Forall2 (fun line tokens => tokenize line = Ok tokens) corpus records
      /\ Forall (fun tokens => ~ In DUMCHAR tokens) records
      /\ emitted = List.concat (map (stripes_from []) records).
Proof.
  unfold map_stage.
  induction corpus as [| line corpus IH]; intros emitted E.
  - injection E as <-. exists []. repeat split; constructor.
  - cbn [mapM] in E.
    apply bind_Ok_inv in E as (yielded & E & Eem). injection Eem as <-.
    apply bind_Ok_inv in E as (out & Eout & E).
    apply bind_Ok_inv in E as (outs & Eouts & E). injection E as <-.
    apply mapper_Ok_inv in Eout as (tokens & Etok & Hclean & ->).
    destruct (IH (List.concat outs)) as (records & Hrec & Hcl & Econcat).
    { rewrite Eouts. reflexivity. }
    exists (tokens :: records). repeat split.
    + now constructor.
    + now constructor.
    + cbn [map List.concat]. now rewrite Econcat.
Qed.

Lemma stripes_for_concat (w : string) (records : list (list string)) :
  stripes_for w (List.concat (map (stripes_from []) records))
  = List.concat (map (fun tokens => stripes_for w (stripes_from [] tokens)) records).
Proof.
  induction records as [| tokens records IH]; [reflexivity |].
  cbn [map List.concat]. now rewrite stripes_for_app, IH.
Qed.

(** ** What the shuffle delivers under a key, and its reduction *)


Lemma total_zero (f : list string -> Z) (records : list (list string)) :
  Forall (fun tokens => f tokens = 0%Z) records -> total f records = 0%Z.
Proof. induction 1 as [| tokens records Hf _ IH]; simpl; lia. Qed.

Lemma group_counter (w k : string) (records : list (list string)) :
  sum_over (counter_get k)
    (stripes_for w (List.concat (map (stripes_from []) records)))
  = ((if String.eqb DUMCHAR k then total (occurrences w) records else 0)
     + total (bigrams w k) records)%Z.
Proof.
  rewrite stripes_for_concat.
  induction records as [| tokens records IH].
  - cbn [map List.concat total fold_right sum_over].
    now destruct (String.eqb DUMCHAR k).
  - cbn [map List.concat total fold_right].
    fold (total (occurrences w) records). fold (total (bigrams w k) records).
    rewrite sum_over_app, IH, record_counter.
    destruct (String.eqb DUMCHAR k); lia.
Qed.

Lemma group_sum (w : string) (records : list (list string)) :
  sum_over sum_values
    (stripes_for w (List.concat (map (stripes_from []) records)))
  = (total (occurrences w) records + total (followed w) records)%Z.
Proof.
  rewrite stripes_for_concat.
  induction records as [| tokens records IH]; [reflexivity |].
  cbn [map List.concat total fold_right].
  fold (total (occurrences w) records). fold (total (followed w) records).
  rewrite sum_over_app, IH, record_sum. lia.
Qed.

Lemma group_well_formed (w : string) (records : list (list string)) :
  Forall well_formed
    (stripes_for w (List.concat (map (stripes_from []) records))).
Proof.
  apply Forall_forall. intros s Hs.
  apply stripes_for_In, in_concat in Hs as (out & Hout & Hs).
  apply in_map_iff in Hout as (tokens & <- & _).
  now apply stripes_from_well_formed in Hs.
Qed.

Lemma tokenize_records_unique (corpus : list string) :
  forall records records' : list (list string),
    Forall2 (fun line tokens => tokenize line = Ok tokens) corpus records ->
    Forall2 (fun line tokens => tokenize line = Ok tokens) corpus records' ->
    records = records'.
Proof.
  induction corpus as [| line corpus IH]; intros records records' H1 H2;
    inversion H1; inversion H2; subst; [reflexivity |].
  f_equal; [congruence | now apply IH].
Qed.

(** The merged counts of the stripes delivered under [w], in terms of the
    token sequences of the corpus. *)
Lemma group_reduction
    (corpus : list string) (records : list (list string))
    (emitted : list (string * dict Z)) (w : string) (strips : list (dict Z)) :
  map_stage corpus = Ok emitted ->
  Forall2 (fun line tokens => tokenize line = Ok tokens) corpus records ->
  Permutation strips (stripes_for w emitted) ->
  strips <> [] ->
  NoDup (keys (merged_counts strips))
  /\ Forall (fun kv => (1 <= snd kv)%Z) (merged_counts strips)
  /\ counter_get DUMCHAR (merged_counts strips) = total (occurrences w) records
  /\ (1 <= total (occurrences w) records)%Z
  /\ (forall k, k <> DUMCHAR ->
                counter_get k (merged_counts strips)
                = total (bigrams w k) records)
  /\ sum_values (dict_del DUMCHAR (merged_counts strips))
     = total (followed w) records.
Proof.
  intros Hmap Hrec Hperm Hne.
  apply map_stage_records in Hmap as (records' & Hrec' & Hclean & ->).
  rewrite (tokenize_records_unique corpus records' records Hrec' Hrec) in *.
  clear records' Hrec'.
  assert (Hwf : Forall well_formed strips).
  { rewrite Hperm. apply group_well_formed. }
  assert (Hnd : Forall (fun s => NoDup (keys s)) strips).
  { eapply Forall_impl; [| exact Hwf]. now intros s (Hs & _). }
  destruct (merged_invariants strips Hwf) as [Hmnd Hmpos].
  assert (Hself : counter_get DUMCHAR (merged_counts strips)
                  = total (occurrences w) records).
  { rewrite merged_counter by assumption.
    rewrite (sum_over_Permutation _ _ _ Hperm), group_counter, String.eqb_refl.
    rewrite (total_zero (bigrams w DUMCHAR)); [lia |].
    eapply Forall_impl; [| exact Hclean].
    intros tokens Ht. now apply bigrams_absent_right. }
  repeat split; try assumption.
  - rewrite <- Hself.
    pose proof (merged_total_positive strips Hne Hwf).
    destruct strips; [contradiction | cbn [List.length] in *; lia].
  - intros k Hk. rewrite merged_counter by assumption.
    rewrite (sum_over_Permutation _ _ _ Hperm), group_counter.
    destruct (String.eqb_spec DUMCHAR k); [congruence | lia].
  - rewrite sum_values_del by assumption.
    rewrite merged_sum, (sum_over_Permutation _ _ _ Hperm), group_sum, Hself.
    lia.
Qed.

(** ** Exact probabilities *)









(** * The claims *)

(** C8. For the record [1,"I like me and you like me too"] the mapper reads
    the tokens i, like, me, and, you, like, me, too; under key [me] it yields
    the stripe {SELF:1, and:1, too:1} for the first occurrence and {SELF:1}
    for the second; the reducer merges the two into {SELF:2, and:1, too:1} and
    yields the distribution {and: 0.5, too: 0.5}, with exact quotients as
    with binary64 floats. *)
Theorem C8_example_record :
  tokenize example_record = Ok example_tokens
  /\ (exists yielded,
        mapper example_record = Ok yielded
        /\ stripes_for "me" yielded = example_stripes)
  /\ merged_counts example_stripes
     = [(DUMCHAR, 2%Z); ("and"%string, 1%Z); ("too"%string, 1%Z)]
  /\ reducer (F := Q) "me" example_stripes
     = Ok [("me"%string, [("and"%string, (1 # 2)%Q); ("too"%string, (1 # 2)%Q)])]
  /\ reducer (F := float) "me" example_stripes
     = Ok [("me"%string,
            [("and"%string, 0.5%float); ("too"%string, 0.5%float)])].
Proof.
  split; [reflexivity |].
  split; [eexists; split; reflexivity |].
  split; [reflexivity |].
  split; [reflexivity |].
  vm_compute. reflexivity.
Qed.

(** C7. For a non-empty sequence of stripes that the mapper produced, the
    merged SELF count is at least 1 (it is at least the number of stripes),
    [total_w] is bound to it, and the reducer yields a distribution: the
    division by zero cannot happen. *)
Theorem C7_self_total_positive {F : Type} `{PyFloat F}
    (word : string) (strips : list (dict Z)) :
  strips <> [] ->
  Forall mapper_produced strips ->
  (1 <= counter_get DUMCHAR (merged_counts strips))%Z
  /\ snd (reducer_merge strips)
     = Some (counter_get DUMCHAR (merged_counts strips))
  /\ exists dist, reducer (F := F) word strips = Ok [(word, dist)].
Proof.
  intros Hne Hprod.
  assert (Hwf : Forall well_formed strips).
  { eapply Forall_impl; [| exact Hprod]. apply mapper_produced_well_formed. }
  pose proof (merged_total_positive strips Hne Hwf) as Htot.
  assert (Hlen : (1 <= Z.of_nat (List.length strips))%Z).
  { destruct strips; [contradiction | cbn [List.length]; lia]. }
  split; [lia |]. split.
  - rewrite reducer_merge_total. destruct strips; [contradiction | reflexivity].
  - eexists. apply reducer_Ok; [assumption | lia].
Qed.

Lemma example_stripes_produced : Forall mapper_produced example_stripes.
Proof.
  repeat constructor.
  - exists example_record. eexists. exists "me"%string.
    split; [reflexivity |]. simpl. tauto.
  - exists example_record. eexists. exists "me"%string.
    split; [reflexivity |]. simpl. tauto.
Defined.

Lemma C7_witness :
  (1 <= counter_get DUMCHAR (merged_counts example_stripes))%Z
  /\ snd (reducer_merge example_stripes)
     = Some (counter_get DUMCHAR (merged_counts example_stripes))
  /\ exists dist, reducer (F := Q) "me" example_stripes = Ok [("me"%string, dist)].
Proof.
  apply (C7_self_total_positive (F := Q) "me" example_stripes).
  - discriminate.
  - exact example_stripes_produced.
Defined.

(** C4. Feeding the reducer a permutation of the same stripes gives the same
    outcome: either both runs yield a distribution for the key, and the two
    distributions map every neighbor to the same probability value (the same
    quotient of the same two integers, hence the same float bit for bit), or
    both runs raise the division error. *)
Theorem C4_reducer_order_independent {F : Type} `{PyFloat F}
    (word : string) (strips strips' : list (dict Z)) :
  Permutation strips strips' ->
  (exists d d',
      reducer (F := F) word strips = Ok [(word, d)]
      /\ reducer (F := F) word strips' = Ok [(word, d')]
      /\ forall k, dict_get k d = dict_get k d')
  \/ (reducer (F := F) word strips = Raise ZeroDivisionError
      /\ reducer (F := F) word strips' = Raise ZeroDivisionError).
Proof.
  intros Hp.
  pose proof (fun k => merged_counts_Permutation strips strips' k Hp) as Hget.
  assert (Htot : counter_get DUMCHAR (merged_counts strips)
                 = counter_get DUMCHAR (merged_counts strips')).
  { unfold counter_get. now rewrite Hget. }
  destruct (merged_counts strips) as [| [k0 v0] m] eqn:Em.
  - assert (Em' : merged_counts strips' = []).
    { destruct (merged_counts strips') as [| [k1 v1] m']; [reflexivity |].
      specialize (Hget k1). simpl in Hget.
      rewrite String.eqb_refl in Hget. discriminate. }
    left. exists [], []. repeat split.
    + now apply reducer_empty.
    + now apply reducer_empty.
  - rewrite <- Em in *.
    assert (Hm : merged_counts strips <> []) by (rewrite Em; discriminate).
    assert (Hm' : merged_counts strips' <> []).
    { intros E. specialize (Hget k0). rewrite Em, E in Hget. simpl in Hget.
      rewrite String.eqb_refl in Hget. discriminate. }
    assert (Hs : strips <> []) by (intros ->; now apply Hm).
    assert (Hs' : strips' <> []) by (intros ->; now apply Hm').
    destruct (Z.eq_dec (counter_get DUMCHAR (merged_counts strips)) 0)
      as [Hz | Hnz].
    + right. split; apply reducer_zero; congruence.
    + left. do 2 eexists. split; [now apply reducer_Ok |].
      split; [apply reducer_Ok; congruence |].
      intros k. rewrite <- Htot.
      rewrite !(dict_get_map
                  (fun v => true_div v (counter_get DUMCHAR (merged_counts strips)))).
      rewrite !dict_get_del. destruct (String.eqb k DUMCHAR); [reflexivity |].
      now rewrite Hget.
Qed.

Lemma C4_witness :
  (exists d d',
      reducer (F := float) "me" example_stripes = Ok [("me"%string, d)]
      /\ reducer (F := float) "me" (rev example_stripes) = Ok [("me"%string, d')]
      /\ forall k, dict_get k d = dict_get k d')
  \/ (reducer (F := float) "me" example_stripes = Raise ZeroDivisionError
      /\ reducer (F := float) "me" (rev example_stripes)
         = Raise ZeroDivisionError).
Proof.
  apply (C4_reducer_order_independent (F := float) "me").
  apply Permutation_rev.
Defined.

(** C5. For the token sequence of a record and a token [w] occurring in it,
    the SELF counts of the stripes the mapper yields under key [w] sum to the
    number of occurrences of [w]: the first occurrence yields a stripe with
    SELF:1, every other occurrence the stripe {SELF:1}. *)
Theorem C5_self_counts_occurrences
    (line : string) (tokens : list string) (w : string) :
  tokenize line = Ok tokens ->
  In w tokens ->
  exists yielded,
    mapper line = Ok yielded
    /\ self_sum w yielded = occurrences w tokens
    /\ exists first,
         stripes_for w yielded
         = first :: repeat [(DUMCHAR, 1%Z)] (count_occ string_dec tokens w - 1)
         /\ dict_get DUMCHAR first = Some 1%Z.
Proof.
  intros Etok Hin.
  pose proof (tokenize_clean line tokens Etok) as Hclean.
  exists (mapper_tokens tokens). split.
  - unfold mapper. now rewrite Etok.
  - rewrite mapper_tokens_stripes. split.
    + unfold self_sum. rewrite record_counter, String.eqb_refl.
      rewrite bigrams_absent_right by assumption. lia.
    + destruct (stripes_for_fresh w tokens [] eq_refl)
        as [[Hno _] | (pre & rest & Et & Hpre & E)]; [contradiction |].
      exists (scan_neighbours w w rest [(DUMCHAR, 1%Z)]). split.
      * rewrite E. subst tokens.
        rewrite count_occ_app, count_occ_cons_eq by reflexivity.
        apply (count_occ_not_In string_dec) in Hpre. rewrite Hpre.
        simpl. now rewrite Nat.sub_0_r.
      * pose proof (scan_counter w DUMCHAR rest w [(DUMCHAR, 1%Z)]) as Hc.
        rewrite bigrams_absent_right in Hc.
        -- unfold counter_get in Hc.
           destruct (dict_get DUMCHAR (scan_neighbours w w rest [(DUMCHAR, 1%Z)]));
             simpl in Hc; [f_equal; lia | discriminate].
        -- intros Hd. apply Hclean. subst tokens.
           apply in_or_app. right. exact Hd.
Qed.

Lemma C5_witness :
  exists yielded,
    mapper example_record = Ok yielded
    /\ self_sum "me" yielded = occurrences "me" example_tokens
    /\ exists first,
         stripes_for "me" yielded
         = first :: repeat [(DUMCHAR, 1%Z)]
                      (count_occ string_dec example_tokens "me"%string - 1)
         /\ dict_get DUMCHAR first = Some 1%Z.
Proof.
  apply (C5_self_counts_occurrences example_record).
  - reflexivity.
  - simpl. tauto.
Defined.

(** A record in which no comma separates the identifier from the text. *)
Lemma C6_counterexample :
  ~ (~ In ","%char (list_ascii_of_string "knock knock")
     -> exists yielded, mapper "knock knock" = Ok yielded).
Proof.
  intros Hclaim.
  destruct Hclaim as [yielded E].
  - simpl. intros Hin. repeat (destruct Hin as [Hc | Hin]; [discriminate Hc |]).
    exact Hin.
  - discriminate E.
Qed.

(** C6, as the mapper behaves. A line without the comma that separates the
    identifier from the text makes the mapper raise IndexError out of the
    generator: the record is not skipped, nothing is yielded for it and the
    exception reaches the caller.  A line with the comma never raises. *)
Theorem C6_missing_separator_raises (line : string) :
  (~ In ","%char (list_ascii_of_string line) ->
   mapper line = Raise IndexError)
  /\ (In ","%char (list_ascii_of_string line) ->
      exists yielded, mapper line = Ok yielded).
Proof.
  split; intros Hc; unfold mapper.
  - now rewrite tokenize_no_comma.
  - destruct (tokenize_comma line Hc) as [tokens ->]. simpl. eauto.
Qed.

Lemma C6_witness :
  mapper "knock knock" = Raise IndexError
  /\ exists yielded, mapper "1,knock knock" = Ok yielded.
Proof.
  split.
  - apply (proj1 (C6_missing_separator_raises "knock knock")).
    simpl. intros Hin. repeat (destruct Hin as [Hc | Hin]; [discriminate Hc |]).
    exact Hin.
  - apply (proj2 (C6_missing_separator_raises "1,knock knock")).
    simpl. tauto.
Defined.

(** C9. Under a key other than the target word the top-ten reducer yields
    nothing and raises nothing.  So when no record of the corpus contains the
    target word, no key of the map stage is the target word and the second
    step yields an empty ranking, without an error. *)
Theorem C9_other_keys_filtered {F : Type} `{PyFloat F} :
  (forall (word : string) (probs : list (dict F)),
      word <> TARGET_WORD -> reducer_topten word probs = Ok [])
  /\ (forall (corpus : list string) (emitted : list (string * dict Z))
             (groups : list (string * list (dict F))),
         map_stage corpus = Ok emitted ->
         (forall line tokens,
             In line corpus -> tokenize line = Ok tokens ->
             ~ In TARGET_WORD tokens) ->
         (forall group, In group groups ->
                        exists strip, In (fst group, strip) emitted) ->
         select_stage groups = Ok []).
Proof.
  split; [apply reducer_topten_other |].
  intros corpus emitted groups Hmap Habsent Hkeys.
  apply select_stage_other, Forall_forall. intros group Hin Htarget.
  destruct (Hkeys group Hin) as [strip Hem].
  apply map_stage_records in Hmap as (records & Hrec & _ & ->).
  apply in_concat in Hem as (out & Hout & Hem).
  apply in_map_iff in Hout as (tokens & <- & Htok).
  apply stripes_from_keys in Hem. rewrite Htarget in Hem.
  clear Hkeys Hin. induction Hrec as [| line toks corpus records Hl _ IH].
  - contradiction.
  - destruct Htok as [-> | Htok].
    + apply (Habsent line tokens); [now left | assumption | assumption].
    + apply IH; [| assumption].
      intros l t Hl' Ht. apply (Habsent l t); [now right | assumption].
Qed.

Lemma C9_witness :
  reducer_topten (F := Q) "you" [example_tie] = Ok []
  /\ select_stage (F := Q) [("knock"%string, [[("knock"%string, 1%Q)]])] = Ok [].
Proof.
  destruct (C9_other_keys_filtered (F := Q)) as [Hother Hcorpus].
  split.
  - apply Hother. discriminate.
  - apply (Hcorpus ["1,knock knock"%string]
                   [("knock"%string, [(DUMCHAR, 1%Z); ("knock"%string, 1%Z)]);
                    ("knock"%string, [(DUMCHAR, 1%Z)])]).
    + reflexivity.
    + intros line tokens [<- | []] Etok.
      injection Etok as <-. simpl.
      intros [E | [E | []]]; discriminate E.
    + intros group [<- | []]. eexists. left. reflexivity.
Defined.

(** Two distributions arrive for the target word; their merge has both
    neighbors, the emitted ranking only the neighbor of the last one. *)
Lemma C1_counterexample :
  ~ (reducer_topten (F := Q) TARGET_WORD [example_first; example_last]
     = Ok (ranked (spec_merge [example_first; example_last])))
  /\ ~ (reducer_topten (F := Q) TARGET_WORD [example_first; example_last]
        = Ok (spec_ranked (spec_merge [example_first; example_last]))).
Proof.
  split; intros E; vm_compute in E; discriminate E.
Qed.

(** C1, as the selector behaves. For the target word and a non-empty sequence
    of distributions, the selector ranks the distribution that arrives last
    and nothing else: the distributions before it do not change the output,
    and a single distribution is ranked as it is. *)
Theorem C1_last_distribution_ranked {F : Type} `{PyFloat F}
    (probs : list (dict F)) (last : dict F) :
  reducer_topten TARGET_WORD (probs ++ [last]) = Ok (ranked last)
  /\ reducer_topten TARGET_WORD (probs ++ [last])
     = reducer_topten TARGET_WORD [last].
Proof.
  split.
  - apply reducer_topten_last.
  - now rewrite reducer_topten_last, (reducer_topten_last [] last).
Qed.

(** The two neighbors of [example_tie] have the same probability; the
    reducer keeps zebra before apple. *)
Lemma C2_counterexample :
  ~ (reducer_topten (F := Q) TARGET_WORD [example_tie]
     = Ok (spec_ranked example_tie)).
Proof.
  intros E. vm_compute in E. discriminate E.
Qed.

(** C2, as the selector behaves. For a distribution processed for the target
    word, the output is the first K = min(10, number of neighbors) items of
    the items sorted by descending probability, items of equal probability
    staying in the order they have in the distribution, numbered 1..K. *)
Theorem C2_topten_stable_ranking (probdict : dict Q) :
  let sorted_dict := sorted_desc probdict in
  let K := Nat.min 10 (List.length probdict) in
  reducer_topten TARGET_WORD [probdict]
  = Ok (combine (map (fun rank => (Z.of_nat rank + 1)%Z) (seq 0 K))
                (firstn K sorted_dict))
  /\ Permutation sorted_dict probdict
  /\ StronglySorted (fun a b => (snd b <= snd a)%Q) sorted_dict
  /\ forall q : Q,
       filter (fun e => Qeq_bool (snd e) q) sorted_dict
       = filter (fun e => Qeq_bool (snd e) q) probdict.
Proof.
  intros sorted_dict K. repeat split.
  - rewrite (reducer_topten_last [] probdict). unfold ranked.
    now rewrite sorted_desc_length.
  - apply sorted_desc_Permutation.
  - apply sorted_desc_sorted.
  - intros q. apply sorted_desc_stable.
Qed.

(** The same runs with binary64 floats. *)
Example topten_tie_binary64 :
  (exists yielded,
      mapper "1,me zebra me apple" = Ok yielded
      /\ reducer (F := float) "me" (stripes_for "me" yielded)
         = Ok [("me"%string,
                [("zebra"%string, 0.5%float); ("apple"%string, 0.5%float)])])
  /\ reducer_topten (F := float) "me"
       [[("zebra"%string, 0.5%float); ("apple"%string, 0.5%float)]]
     = Ok [(1%Z, ("zebra"%string, 0.5%float));
           (2%Z, ("apple"%string, 0.5%float))].
Proof.
  split.
  - eexists. split; [reflexivity |]. vm_compute. reflexivity.
  - vm_compute. reflexivity.
Qed.

Example topten_last_binary64 :
  reducer_topten (F := float) "me"
    [[("a"%string, 1%float)]; [("b"%string, 1%float)]]
  = Ok [(1%Z, ("b"%string, 1%float))].
Proof. vm_compute. reflexivity. Qed.



Lemma example_stripes_delivered :
  map_stage [example_record] = Ok example_emitted
  /\ Forall2 (fun line tokens => tokenize line = Ok tokens)
       [example_record] [example_tokens]
  /\ Permutation example_stripes (stripes_for "me" example_emitted).
Proof.
  split; [reflexivity |]. split; [repeat constructor |].
  exact (Permutation_refl example_stripes).
Defined.




(** The runs above with binary64 floats: the distribution of a in
    [1,a b a] is {b: 0.5}, and that of the last token of the example record
    is empty. *)
Example reducer_half_binary64 :
  reducer (F := float) "a" [[(DUMCHAR, 1%Z); ("b"%string, 1%Z)]; [(DUMCHAR, 1%Z)]]
  = Ok [("a"%string, [("b"%string, 0.5%float)])]
  /\ reducer (F := float) "too" (stripes_for "too" example_emitted)
     = Ok [("too"%string, [])].
Proof. split; vm_compute; reflexivity. Qed.

(** The bounds of C10 are about all the stripes of a key.  The stripe of the
    first occurrence of me in [1,me a me a], without the stripe of the
    second occurrence, has a neighbor count above its SELF count. *)
Example first_stripe_alone :
  (exists yielded,
      mapper "1,me a me a" = Ok yielded
      /\ stripes_for "me" yielded
         = [[(DUMCHAR, 1%Z); ("a"%string, 2%Z)]; [(DUMCHAR, 1%Z)]])
  /\ reducer (F := Q) "me" [[(DUMCHAR, 1%Z); ("a"%string, 2%Z)]]
     = Ok [("me"%string, [("a"%string, 2%Q)])].
Proof.
  split; [eexists; split; reflexivity | reflexivity].
Qed.

(** * Further properties of the job *)

(** ** The tokenizer *)

Lemma list_ascii_of_string_app (s1 s2 : string) :
  list_ascii_of_string (s1 ++ s2)%string
  = list_ascii_of_string s1 ++ list_ascii_of_string s2.
Proof. induction s1 as [| c s1 IH]; simpl; [reflexivity | now rewrite IH]. Qed.

Lemma split_comma_1_first (a b : list ascii) :
  ~ In ","%char a -> split_comma_1 (a ++ ","%char :: b) = [a; b].
Proof.
  induction a as [| c a IH]; intros Hno; [reflexivity |].
  cbn [app split_comma_1].
  destruct (Ascii.eqb_spec c ","%char) as [-> | Hc].
  - exfalso. apply Hno. now left.
  - rewrite IH; [reflexivity |]. intros Hin. apply Hno. now right.
Qed.

(** The tokens of a line whose identifier has no comma: the whole text after
    the first comma, later commas included, is normalized and split. *)
Lemma tokenize_fields (id text : string) :
  ~ In ","%char (list_ascii_of_string id) ->
  tokenize (id ++ "," ++ text)%string
  = Ok (map string_of_list_ascii
          (split (lower (strip (translate (list_ascii_of_string text)))))).
Proof.
  intros Hno. unfold tokenize.
  rewrite list_ascii_of_string_app. cbn [append list_ascii_of_string].
  rewrite split_comma_1_first by assumption. reflexivity.
Qed.

Lemma lower_char_normal (c : ascii) :
  ascii_in c punctuation = false ->
  ascii_in (lower_char c) punctuation = false
  /\ is_upper (lower_char c) = false.
Proof.
  destruct c as [[] [] [] [] [] [] [] []]; vm_compute; intros E;
    first [discriminate E | split; reflexivity].
Qed.

Lemma lower_char_space (c : ascii) :
  is_space (lower_char c) = is_space c.
Proof. destruct c as [[] [] [] [] [] [] [] []]; reflexivity. Qed.

Lemma split_ws_no_space (s : list ascii) :
  forall cur,
    Forall (fun c => is_space c = false) cur ->
    Forall (Forall (fun c => is_space c = false)) (split_ws cur s).
Proof.
  induction s as [| c s IH]; intros cur Hcur; simpl.
  - destruct cur; [constructor |].
    constructor; [now apply Forall_rev | constructor].
  - destruct (is_space c) eqn:E.
    + destruct cur; [now apply IH |].
      constructor; [now apply Forall_rev | now apply IH].
    + apply IH. now constructor.
Qed.

(** X1. Every token the tokenizer returns is a non-empty string without
    whitespace, without punctuation and without upper-case letters. *)
Theorem tokenize_normalized (line : string) (tokens : list string) :
  tokenize line = Ok tokens ->
  Forall (fun token =>
            token <> EmptyString
            /\ Forall normalized_char (list_ascii_of_string token))
         tokens.
Proof.
  unfold tokenize. intros E.
  apply bind_Ok_inv in E as (field & _ & E). injection E as <-.
  set (P := fun c : ascii =>
              ascii_in c punctuation = false /\ is_upper c = false).
  assert (Hlow : Forall P (lower (strip (translate field)))).
  { unfold lower. apply Forall_forall. intros c Hc.
    apply in_map_iff in Hc as (c0 & <- & Hc0).
    apply lower_char_normal.
    assert (Htr : Forall (fun c => ascii_in c punctuation = false)
                    (strip (translate field))).
    { apply strip_Forall, Forall_forall. intros c Hc.
      apply filter_In in Hc as [_ Hc]. now apply negb_true_iff in Hc. }
    rewrite Forall_forall in Htr. now apply Htr. }
  pose proof (split_ws_Forall P _ [] (Forall_nil _) Hlow) as Hsp.
  pose proof (split_ws_no_space (lower (strip (translate field))) []
                (Forall_nil _)) as Hns.
  pose proof (split_ws_nonempty (lower (strip (translate field))) []) as Hne.
  fold (split (lower (strip (translate field)))) in Hsp, Hns, Hne.
  apply Forall_forall. intros token Hin.
  apply in_map_iff in Hin as (w & <- & Hw).
  rewrite Forall_forall in Hsp, Hns, Hne.
  specialize (Hsp w Hw). specialize (Hns w Hw). specialize (Hne w Hw).
  split.
  - intros Eempty. apply Hne.
    rewrite <- (list_ascii_of_string_of_list_ascii w), Eempty. reflexivity.
  - rewrite list_ascii_of_string_of_list_ascii.
    apply Forall_forall. intros c Hc.
    rewrite Forall_forall in Hsp, Hns.
    destruct (Hsp c Hc) as [Hp Hu]. specialize (Hns c Hc).
    now repeat split.
Qed.

Lemma tokenize_normalized_witness :
  Forall (fun token =>
            token <> EmptyString
            /\ Forall normalized_char (list_ascii_of_string token))
         example_tokens.
Proof.
  apply (tokenize_normalized example_record). reflexivity.
Defined.

(** X2. The identifier column is discarded: two lines with the same text
    after the first comma, whatever their comma-free identifiers, make the
    mapper yield the same stripes, and the mapper does not raise. *)
Theorem mapper_ignores_identifier (id1 id2 text : string) :
  ~ In ","%char (list_ascii_of_string id1) ->
  ~ In ","%char (list_ascii_of_string id2) ->
  mapper (id1 ++ "," ++ text)%string = mapper (id2 ++ "," ++ text)%string
  /\ exists yielded, mapper (id1 ++ "," ++ text)%string = Ok yielded.
Proof.
  intros H1 H2. unfold mapper.
  rewrite !tokenize_fields by assumption. split; [reflexivity |].
  simpl. eauto.
Qed.

Lemma mapper_ignores_identifier_witness :
  mapper ("1" ++ "," ++ "me too")%string = mapper ("joke 7" ++ "," ++ "me too")%string
  /\ exists yielded, mapper ("1" ++ "," ++ "me too")%string = Ok yielded.
Proof.
  apply (mapper_ignores_identifier "1" "joke 7" "me too").
  - simpl. intros [E | []]. discriminate E.
  - simpl. intros Hin.
    repeat (destruct Hin as [E | Hin]; [discriminate E |]). exact Hin.
Defined.

Lemma lstrip_blank (s : list ascii) :
  Forall (fun c => is_space c = true) s -> lstrip s = [].
Proof.
  induction 1 as [| c s Hc _ IH]; [reflexivity |].
  simpl. now rewrite Hc.
Qed.

(** X3. A record whose text field holds only whitespace and punctuation
    (an empty field included) yields nothing, without an error. *)
Theorem mapper_blank_text (id text : string) :
  ~ In ","%char (list_ascii_of_string id) ->
  Forall (fun c => is_space c = true \/ ascii_in c punctuation = true)
         (list_ascii_of_string text) ->
  mapper (id ++ "," ++ text)%string = Ok [].
Proof.
  intros Hid Hblank. unfold mapper.
  rewrite tokenize_fields by assumption.
  assert (Hsp : Forall (fun c => is_space c = true)
                  (translate (list_ascii_of_string text))).
  { apply Forall_forall. intros c Hc.
    apply filter_In in Hc as [Hin Hp]. apply negb_true_iff in Hp.
    rewrite Forall_forall in Hblank.
    destruct (Hblank c Hin) as [Hs | Hq]; [assumption | congruence]. }
  unfold strip. rewrite (lstrip_blank _ Hsp). reflexivity.
Qed.

Lemma mapper_blank_text_witness :
  mapper ("12" ++ "," ++ " ... !? ")%string = Ok [].
Proof.
  apply (mapper_blank_text "12" " ... !? ").
  - simpl. intros [E | [E | []]]; discriminate E.
  - repeat constructor; vm_compute; tauto.
Defined.

(** ** The stripes of a record *)

Lemma stripes_from_keys_in_order :
  forall (tokens : list string) (processed : dict Z),
    map fst (stripes_from processed tokens) = tokens.
Proof.
  induction tokens as [| a tokens IH]; intros processed; [reflexivity |].
  cbn [stripes_from].
  destruct (negb (dict_mem a processed)); cbn [map fst]; now rewrite IH.
Qed.

(** X4. The mapper yields one pair per token occurrence, in the order of the
    tokens, keyed by the token. *)
Theorem mapper_one_pair_per_token
    (line : string) (tokens : list string) (yielded : list (string * dict Z)) :
  tokenize line = Ok tokens ->
  mapper line = Ok yielded ->
  map fst yielded = tokens.
Proof.
  intros Etok Emap. unfold mapper in Emap. rewrite Etok in Emap.
  injection Emap as <-.
  rewrite mapper_tokens_stripes. apply stripes_from_keys_in_order.
Qed.

Lemma mapper_one_pair_per_token_witness :
  map fst example_emitted = example_tokens.
Proof.
  apply (mapper_one_pair_per_token example_record); reflexivity.
Defined.

(** X5. In the first stripe yielded under a token [w], every neighbor [x] is
    counted as often as [x] comes directly after [w] in the record, and a
    token that never follows [w] is not a key of the stripe. *)
Theorem mapper_first_stripe_counts
    (line : string) (tokens : list string) (yielded : list (string * dict Z))
    (w : string) (first : dict Z) (others : list (dict Z)) :
  tokenize line = Ok tokens ->
  mapper line = Ok yielded ->
  stripes_for w yielded = first :: others ->
  forall x, x <> DUMCHAR ->
    dict_get x first
    = if (0 <? bigrams w x tokens)%Z
      then Some (bigrams w x tokens)
      else None.
Proof.
  intros Etok Emap Efirst x Hx.
  unfold mapper in Emap. rewrite Etok in Emap. injection Emap as <-.
  rewrite mapper_tokens_stripes in Efirst.
  destruct (stripes_for_fresh w tokens [] eq_refl)
    as [[_ E] | (pre & rest & Et & Hpre & E)]; rewrite E in Efirst;
    [discriminate Efirst |].
  injection Efirst as <- _. subst tokens.
  rewrite bigrams_prefix by assumption.
  pose proof (scan_counter w x rest w [(DUMCHAR, 1%Z)]) as Hc.
  assert (H0 : counter_get x [(DUMCHAR, 1%Z)] = 0%Z).
  { unfold counter_get. cbn [dict_get].
    destruct (String.eqb_spec DUMCHAR x); [congruence | reflexivity]. }
  rewrite H0 in Hc. cbn [Z.add] in Hc.
  destruct (scanned_well_formed w rest) as (_ & Hpos & _).
  unfold counter_get in Hc.
  destruct (dict_get x (scan_neighbours w w rest [(DUMCHAR, 1%Z)]))
    as [v |] eqn:Eg.
  - apply dict_get_In in Eg. rewrite Forall_forall in Hpos.
    specialize (Hpos _ Eg). cbn [snd] in Hpos. rewrite <- Hc.
    destruct (Z.ltb_spec 0 v); [reflexivity | lia].
  - rewrite <- Hc. reflexivity.
Qed.

Lemma mapper_first_stripe_counts_witness :
  dict_get "and" [(DUMCHAR, 1%Z); ("and"%string, 1%Z); ("too"%string, 1%Z)]
  = if (0 <? bigrams "me" "and" example_tokens)%Z
    then Some (bigrams "me" "and" example_tokens)
    else None.
Proof.
  apply (mapper_first_stripe_counts example_record example_tokens
           example_emitted "me" _ [[(DUMCHAR, 1%Z)]]);
    [reflexivity | reflexivity | reflexivity | discriminate].
Defined.

Lemma fresh_followed_cons (processed : dict Z) (a b : string)
    (l : list string) :
  fresh_followed processed (a :: b :: l)
  = ((if dict_mem a processed then 0 else 1)
     + fresh_followed processed (b :: l))%Z.
Proof. reflexivity. Qed.

Lemma fresh_followed_set (a : string) (l : list string) :
  forall processed : dict Z,
    dict_mem a processed = false ->
    fresh_followed processed l
    = (fresh_followed (dict_set a 1%Z processed) l + followed a l)%Z.
Proof.
  induction l as [| b [| c l] IH]; intros processed Ha; try reflexivity.
  rewrite !fresh_followed_cons, followed_cons, (IH processed Ha).
  rewrite dict_mem_set, (String.eqb_sym b a).
  destruct (String.eqb_spec a b) as [<- | Hne]; cbn [orb].
  - rewrite Ha. lia.
  - destruct (dict_mem b processed); lia.
Qed.

Lemma fresh_followed_all (l : list string) :
  fresh_followed [] l = Z.of_nat (List.length l - 1).
Proof.
  induction l as [| a [| b l] IH]; try reflexivity.
  rewrite fresh_followed_cons, IH. cbn [dict_mem dict_get List.length]. lia.
Qed.

Lemma neighbour_mass_cons (k : string) (s : dict Z)
    (l : list (string * dict Z)) :
  neighbour_mass ((k, s) :: l)
  = (sum_values (dict_del DUMCHAR s) + neighbour_mass l)%Z.
Proof. reflexivity. Qed.

Lemma scanned_neighbour_sum (w : string) (rest : list string) :
  ~ In DUMCHAR (w :: rest) ->
  sum_values (dict_del DUMCHAR (scan_neighbours w w rest [(DUMCHAR, 1%Z)]))
  = followed w (w :: rest).
Proof.
  intros Hclean.
  destruct (scanned_well_formed w rest) as (Hnd & _ & _).
  rewrite sum_values_del, scan_sum, scan_counter by assumption.
  rewrite (bigrams_absent_right w DUMCHAR) by assumption.
  change (sum_values [(DUMCHAR, 1%Z)]) with 1%Z.
  change (counter_get DUMCHAR [(DUMCHAR, 1%Z)]) with 1%Z. lia.
Qed.

Lemma stripes_from_neighbour_mass :
  forall (tokens : list string) (processed : dict Z),
    ~ In DUMCHAR tokens ->
    neighbour_mass (stripes_from processed tokens)
    = fresh_followed processed tokens.
Proof.
  induction tokens as [| a tokens IH]; intros processed Hclean;
    [reflexivity |].
  assert (Htail : ~ In DUMCHAR tokens) by (intros Hin; apply Hclean; now right).
  cbn [stripes_from].
  destruct (dict_mem a processed) eqn:Ea; cbn [negb];
    rewrite neighbour_mass_cons, IH by assumption.
  - destruct tokens as [| b tokens]; [reflexivity |].
    rewrite fresh_followed_cons, Ea. reflexivity.
  - rewrite scanned_neighbour_sum by assumption.
    destruct tokens as [| b tokens]; [reflexivity |].
    rewrite fresh_followed_cons, Ea, followed_cons, String.eqb_refl.
    rewrite (fresh_followed_set a (b :: tokens) processed Ea). lia.
Qed.

(** X6. The mapper counts every adjacent pair of the record exactly once:
    the neighbor counts of all stripes yielded for a record of n tokens sum
    to n - 1 (to 0 for an empty record). *)
Theorem mapper_counts_every_bigram
    (line : string) (tokens : list string) (yielded : list (string * dict Z)) :
  tokenize line = Ok tokens ->
  mapper line = Ok yielded ->
  neighbour_mass yielded = Z.of_nat (List.length tokens - 1).
Proof.
  intros Etok Emap.
  pose proof (tokenize_clean line tokens Etok) as Hclean.
  unfold mapper in Emap. rewrite Etok in Emap. injection Emap as <-.
  rewrite mapper_tokens_stripes, stripes_from_neighbour_mass by assumption.
  apply fresh_followed_all.
Qed.

Lemma mapper_counts_every_bigram_witness :
  neighbour_mass example_emitted = Z.of_nat (List.length example_tokens - 1).
Proof.
  apply (mapper_counts_every_bigram example_record); reflexivity.
Defined.

Lemma dict_set_keeps_head (k x : string) (v0 v : Z) (d : dict Z) :
  x <> k -> dict_set x v ((k, v0) :: d) = (k, v0) :: dict_set x v d.
Proof.
  intros Hne. cbn [dict_set].
  destruct (String.eqb_spec k x); [congruence | reflexivity].
Qed.

Lemma scan_keeps_self (w : string) :
  forall (rest : list string) (prev : string) (d : dict Z),
    ~ In DUMCHAR rest ->
    exists d', scan_neighbours w prev rest ((DUMCHAR, 1%Z) :: d)
               = (DUMCHAR, 1%Z) :: d'.
Proof.
  induction rest as [| x rest IH]; intros prev d Hclean; [simpl; eauto |].
  assert (Hx : x <> DUMCHAR) by (intros ->; apply Hclean; now left).
  assert (Hrest : ~ In DUMCHAR rest) by (intros Hin; apply Hclean; now right).
  cbn [scan_neighbours]. destruct (String.eqb prev w); [| now apply IH].
  unfold increment. cbn [dict_get].
  destruct (String.eqb_spec DUMCHAR x); [congruence |].
  destruct (dict_get x d); rewrite dict_set_keeps_head by assumption;
    now apply IH.
Qed.

Lemma stripes_from_shape :
  forall (tokens : list string) (processed : dict Z) (k : string) (s : dict Z),
    ~ In DUMCHAR tokens ->
    In (k, s) (stripes_from processed tokens) ->
    exists neighbours, s = (DUMCHAR, 1%Z) :: neighbours.
Proof.
  induction tokens as [| a tokens IH]; intros processed k s Hclean;
    simpl; [tauto |].
  assert (Htail : ~ In DUMCHAR tokens) by (intros Hin; apply Hclean; now right).
  destruct (negb (dict_mem a processed)); intros [E | Hin];
    try (now apply (IH _ k s Htail Hin)); injection E as _ <-.
  - now apply scan_keeps_self.
  - now exists [].
Qed.

(** X7. Every stripe the mapper yields starts with the entry SELF:1 and goes
    on with neighbor entries only: the keys are distinct, the neighbors are
    not the SELF marker, and every neighbor count is at least 1. *)
Theorem mapper_stripe_shape
    (line : string) (yielded : list (string * dict Z))
    (key : string) (strip : dict Z) :
  mapper line = Ok yielded ->
  In (key, strip) yielded ->
  exists neighbours,
    strip = (DUMCHAR, 1%Z) :: neighbours
    /\ NoDup (keys neighbours)
    /\ ~ In DUMCHAR (keys neighbours)
    /\ Forall (fun kv => (1 <= snd kv)%Z) neighbours.
Proof.
  intros Emap Hin.
  apply mapper_Ok_inv in Emap as (tokens & _ & Hclean & ->).
  destruct (stripes_from_well_formed _ _ _ _ Hin) as (Hnd & Hpos & _).
  destruct (stripes_from_shape _ _ _ _ Hclean Hin) as (neighbours & ->).
  exists neighbours. split; [reflexivity |].
  cbn [keys map fst] in Hnd. fold (keys neighbours) in Hnd.
  inversion Hnd; subst. inversion Hpos; subst. now repeat split.
Qed.

Lemma mapper_stripe_shape_witness :
  exists neighbours,
    [(DUMCHAR, 1%Z); ("and"%string, 1%Z); ("too"%string, 1%Z)]
    = (DUMCHAR, 1%Z) :: neighbours
    /\ NoDup (keys neighbours)
    /\ ~ In DUMCHAR (keys neighbours)
    /\ Forall (fun kv => (1 <= snd kv)%Z) neighbours.
Proof.
  apply (mapper_stripe_shape example_record example_emitted "me").
  - reflexivity.
  - simpl. tauto.
Defined.

(** ** The reducer on arbitrary stripes *)

Lemma existsb_key_mem {V : Type} (k : string) (d : dict V) :
  existsb (fun kv => String.eqb (fst kv) k) d = dict_mem k d.
Proof.
  unfold dict_mem. induction d as [| [a v] d IH]; [reflexivity |].
  cbn [existsb dict_get fst].
  destruct (String.eqb a k); [reflexivity | exact IH].
Qed.

Lemma dict_mem_keys {V : Type} (k : string) (d : dict V) :
  dict_mem k d = existsb (String.eqb k) (keys d).
Proof.
  unfold dict_mem. induction d as [| [a v] d IH]; [reflexivity |].
  cbn [keys map existsb dict_get fst]. rewrite (String.eqb_sym k a).
  destruct (String.eqb a k); [reflexivity | exact IH].
Qed.



Lemma reducer_add_NoDup :
  forall (items r : dict Z),
    NoDup (keys r) -> NoDup (keys (fold_left reducer_add items r)).
Proof.
  induction items as [| [a v] items IH]; intros r Hr; [assumption |].
  cbn [fold_left]. apply IH. unfold reducer_add. now apply dict_set_NoDup.
Qed.

Lemma merged_counts_NoDup (strips : list (dict Z)) :
  NoDup (keys (merged_counts strips)).
Proof. rewrite merged_counts_concat. apply reducer_add_NoDup. constructor. Qed.

Lemma reducer_add_keys :
  forall (items r : dict Z),
    keys (fold_left reducer_add items r) = first_seen (keys items) (keys r).
Proof.
  induction items as [| [a v] items IH]; intros r; [reflexivity |].
  change (fold_left reducer_add ((a, v) :: items) r)
    with (fold_left reducer_add items (reducer_add r (a, v))).
  rewrite IH. unfold reducer_add. rewrite dict_set_keys, dict_mem_keys.
  reflexivity.
Qed.

Lemma dict_del_keys {V : Type} (k : string) (d : dict V) :
  keys (dict_del k d) = filter (fun a => negb (String.eqb a k)) (keys d).
Proof.
  unfold dict_del, keys. induction d as [| [a v] d IH]; [reflexivity |].
  cbn [filter map fst]. destruct (String.eqb a k); cbn [negb map fst];
    now rewrite IH.
Qed.

Lemma map_values_keys {V W : Type} (f : V -> W) (d : dict V) :
  keys (map (fun kv => (fst kv, f (snd kv))) d) = keys d.
Proof. unfold keys. rewrite map_map. reflexivity. Qed.

Section ReducerGeneral.
Context {F : Type} `{PyFloat F}.

(** What the reducer yields when it yields. *)
Lemma reducer_Ok_inv (word : string) (strips : list (dict Z))
    (out : list (string * dict F)) :
  reducer word strips = Ok out ->
  out = [(word,
          map (fun kv =>
                 (fst kv,
                  true_div (snd kv) (counter_get DUMCHAR (merged_counts strips))))
              (dict_del DUMCHAR (merged_counts strips)))].
Proof.
  intros E.
  destruct (merged_counts strips) as [| kv m] eqn:Em.
  - rewrite reducer_empty in E by assumption. now injection E as <-.
  - rewrite <- Em in *.
    assert (Hm : merged_counts strips <> []) by (rewrite Em; discriminate).
    destruct (Z.eq_dec (counter_get DUMCHAR (merged_counts strips)) 0)
      as [Hz | Hnz].
    + rewrite reducer_zero in E by assumption. discriminate E.
    + rewrite reducer_Ok in E; [now injection E as <- | | assumption].
      intros ->. now apply Hm.
Qed.


(** X9. In the distribution the reducer yields the SELF marker is gone, no
    neighbor is listed twice, and the neighbors stand in the order in which
    they first appear in the stripes as delivered. *)
Theorem reducer_neighbours_in_arrival_order
    (word key : string) (strips : list (dict Z)) (dist : dict F) :
  reducer word strips = Ok [(key, dist)] ->
  key = word
  /\ dict_get DUMCHAR dist = None
  /\ NoDup (keys dist)
  /\ keys dist
     = filter (fun k => negb (String.eqb k DUMCHAR))
         (first_seen (keys (List.concat strips)) []).
Proof.
  intros E. apply reducer_Ok_inv in E.
  assert (Ek : key = word) by congruence.
  assert (Ed : dist
               = map (fun kv =>
                        (fst kv,
                         true_div (snd kv)
                           (counter_get DUMCHAR (merged_counts strips))))
                     (dict_del DUMCHAR (merged_counts strips)))
    by congruence.
  clear E. subst key dist. split; [reflexivity |].
  rewrite (map_values_keys
             (fun v => true_div v (counter_get DUMCHAR (merged_counts strips)))).
  rewrite dict_del_keys.
  split; [| split].
  - rewrite (dict_get_map
               (fun v => true_div v (counter_get DUMCHAR (merged_counts strips)))).
    now rewrite dict_get_del, String.eqb_refl.
  - apply NoDup_filter, merged_counts_NoDup.
  - now rewrite merged_counts_concat, reducer_add_keys.
Qed.

(** The outcome depends on the merged counts as a mapping only. *)
Lemma reducer_same_mapping (word : string) (s1 s2 : list (dict Z)) :
  (forall k, dict_get k (merged_counts s1) = dict_get k (merged_counts s2)) ->
  same_distribution (reducer word s1) (reducer word s2).
Proof.
  intros Hget.
  assert (Htot : counter_get DUMCHAR (merged_counts s1)
                 = counter_get DUMCHAR (merged_counts s2)).
  { unfold counter_get. now rewrite Hget. }
  assert (Hnil : merged_counts s1 = [] <-> merged_counts s2 = []).
  { split; intros E.
    - destruct (merged_counts s2) as [| [k v] m]; [reflexivity |].
      specialize (Hget k). rewrite E in Hget. cbn [dict_get] in Hget.
      rewrite String.eqb_refl in Hget. discriminate Hget.
    - destruct (merged_counts s1) as [| [k v] m]; [reflexivity |].
      specialize (Hget k). rewrite E in Hget. cbn [dict_get] in Hget.
      rewrite String.eqb_refl in Hget. discriminate Hget. }
  destruct (merged_counts s1) as [| kv m] eqn:Em.
  - rewrite (reducer_empty word s1 Em).
    rewrite (reducer_empty word s2) by now apply Hnil.
    cbn. now split.
  - rewrite <- Em in *.
    assert (Hm1 : merged_counts s1 <> []) by (rewrite Em; discriminate).
    assert (Hm2 : merged_counts s2 <> []) by (intros E; now apply Hm1, Hnil).
    destruct (Z.eq_dec (counter_get DUMCHAR (merged_counts s1)) 0)
      as [Hz | Hnz].
    + rewrite (reducer_zero word s1), (reducer_zero word s2);
        try assumption; [reflexivity | congruence].
    + rewrite (reducer_Ok word s1), (reducer_Ok word s2);
        try assumption; try congruence.
      * cbn. split; [reflexivity |]. intros k. rewrite <- Htot.
        rewrite !(dict_get_map
                    (fun v => true_div v (counter_get DUMCHAR (merged_counts s1)))).
        rewrite !dict_get_del. destruct (String.eqb k DUMCHAR); [reflexivity |].
        now rewrite Hget.
      * intros ->. now apply Hm2.
      * intros ->. now apply Hm1.
Qed.
End ReducerGeneral.

Lemma reducer_neighbours_in_arrival_order_witness :
  "me"%string = "me"%string
  /\ dict_get DUMCHAR [("and"%string, 0.5%float); ("too"%string, 0.5%float)] = None
  /\ NoDup (keys [("and"%string, 0.5%float); ("too"%string, 0.5%float)])
  /\ keys [("and"%string, 0.5%float); ("too"%string, 0.5%float)]
     = filter (fun k => negb (String.eqb k DUMCHAR))
         (first_seen (keys (List.concat example_stripes)) []).
Proof.
  apply (reducer_neighbours_in_arrival_order (F := float) "me" "me" example_stripes).
  vm_compute. reflexivity.
Defined.

(** ** Merging in batches *)

Lemma merged_counts_app_get (k : string) (l1 l2 : list (dict Z)) :
  dict_get k (merged_counts (l1 ++ l2))
  = match dict_get k (merged_counts l1), dict_get k (merged_counts l2) with
    | Some a, Some b => Some (a + b)%Z
    | Some a, None => Some a
    | None, Some b => Some b
    | None, None => None
    end.
Proof.
  assert (Hget : forall l,
             dict_get k (merged_counts l)
             = if existsb (fun kv => String.eqb (fst kv) k) (List.concat l)
               then Some (entry_sum k (List.concat l))
               else None).
  { intros l. now rewrite merged_counts_concat, reducer_add_get. }
  assert (Hzero : forall l,
             existsb (fun kv => String.eqb (fst kv) k) l = false ->
             entry_sum k l = 0%Z).
  { intros l E. apply entry_sum_absent. intros Hin.
    apply in_map_iff in Hin as (kv & Ek & Hin).
    assert (Hex : existsb (fun kv => String.eqb (fst kv) k) l = true).
    { apply existsb_exists. exists kv. split; [assumption |].
      rewrite Ek. apply String.eqb_refl. }
    congruence. }
  assert (Happ : forall a b : dict Z,
             entry_sum k (a ++ b) = (entry_sum k a + entry_sum k b)%Z).
  { intros a b. induction a as [| [x v] a IH]; [reflexivity |].
    cbn [app entry_sum fold_right fst snd].
    fold (entry_sum k (a ++ b)). fold (entry_sum k a).
    destruct (String.eqb x k); lia. }
  rewrite !Hget, concat_app, existsb_app, Happ.
  destruct (existsb _ (List.concat l1)) eqn:E1,
           (existsb _ (List.concat l2)) eqn:E2; cbn [orb].
  - reflexivity.
  - rewrite (Hzero _ E2). f_equal. lia.
  - rewrite (Hzero _ E1). reflexivity.
  - reflexivity.
Qed.

Lemma merged_counts_single_get (k : string) (d : dict Z) :
  NoDup (keys d) -> dict_get k (merged_counts [d]) = dict_get k d.
Proof.
  intros Hnd. rewrite merged_counts_concat, reducer_add_get.
  cbn [List.concat dict_get]. rewrite app_nil_r.
  rewrite existsb_key_mem, entry_sum_counter by assumption.
  unfold dict_mem, counter_get. now destruct (dict_get k d).
Qed.

(** X10. The merge can be done in batches: merging the merged counts of two
    batches gives the same outcome as merging all the stripes at once, with
    the same probability for every neighbor. *)
Theorem reducer_merges_in_batches {F : Type} `{PyFloat F}
    (word : string) (batch1 batch2 : list (dict Z)) :
  same_distribution
    (reducer (F := F) word [merged_counts batch1; merged_counts batch2])
    (reducer (F := F) word (batch1 ++ batch2)).
Proof.
  apply reducer_same_mapping. intros k.
  change [merged_counts batch1; merged_counts batch2]
    with ([merged_counts batch1] ++ [merged_counts batch2]).
  rewrite !merged_counts_app_get.
  now rewrite !merged_counts_single_get by apply merged_counts_NoDup.
Qed.

(** ** The distribution of a token over a corpus *)

Lemma group_frequency {F : Type} `{PyFloat F}
    (corpus : list string) (records : list (list string))
    (emitted : list (string * dict Z)) (w : string) (strips : list (dict Z)) :
  map_stage corpus = Ok emitted ->
  Forall2 (fun line tokens => tokenize line = Ok tokens) corpus records ->
  Permutation strips (stripes_for w emitted) ->
  strips <> [] ->
  exists dist,
    reducer (F := F) w strips = Ok [(w, dist)]
    /\ NoDup (keys dist)
    /\ forall x,
         dict_get x dist
         = if (0 <? total (bigrams w x) records)%Z
           then Some (true_div (total (bigrams w x) records)
                               (total (occurrences w) records))
           else None.
Proof.
  intros Hmap Hrec Hperm Hne.
  destruct (group_reduction corpus records emitted w strips Hmap Hrec Hperm Hne)
    as (Hnd & Hpos & Hself & Hocc & Hbig & _).
  apply map_stage_records in Hmap as (records' & Hrec' & Hclean & _).
  rewrite (tokenize_records_unique corpus records' records Hrec' Hrec) in *.
  eexists. split; [apply reducer_Ok; [assumption | lia] |]. split.
  { rewrite (map_values_keys
               (fun v => true_div v (counter_get DUMCHAR (merged_counts strips)))).
    rewrite dict_del_keys. now apply NoDup_filter. }
  intros x. rewrite Hself.
  rewrite (dict_get_map (fun v => true_div v (total (occurrences w) records))).
  rewrite dict_get_del.
  destruct (String.eqb_spec x DUMCHAR) as [-> | Hx].
  - rewrite (total_zero (bigrams w DUMCHAR)); [reflexivity |].
    eapply Forall_impl; [| exact Hclean].
    intros tokens Ht. now apply bigrams_absent_right.
  - rewrite <- (Hbig x Hx). unfold counter_get.
    destruct (dict_get x (merged_counts strips)) as [v |] eqn:Eg.
    + apply dict_get_In in Eg. rewrite Forall_forall in Hpos.
      specialize (Hpos _ Eg). cbn [snd] in Hpos. cbn [option_map].
      destruct (Z.ltb_spec 0 v); [reflexivity | lia].
    + reflexivity.
Qed.

(** X11. For the stripes of a corpus delivered under a token [w], in any
    order, the reducer yields for every token [x] that follows [w] somewhere
    the quotient of the number of times [x] follows [w] by the number of
    occurrences of [w], and no entry for any other token. *)
Theorem reducer_conditional_frequency {F : Type} `{PyFloat F}
    (corpus : list string) (records : list (list string))
    (emitted : list (string * dict Z)) (w : string) (strips : list (dict Z)) :
  map_stage corpus = Ok emitted ->
  Forall2 (fun line tokens => tokenize line = Ok tokens) corpus records ->
  Permutation strips (stripes_for w emitted) ->
  strips <> [] ->
  exists dist,
    reducer (F := F) w strips = Ok [(w, dist)]
    /\ forall x,
         dict_get x dist
         = if (0 <? total (bigrams w x) records)%Z
           then Some (true_div (total (bigrams w x) records)
                               (total (occurrences w) records))
           else None.
Proof.
  intros Hmap Hrec Hperm Hne.
  destruct (group_frequency (F := F) corpus records emitted w strips
              Hmap Hrec Hperm Hne) as (dist & Hred & _ & Hfreq).
  exists dist. now split.
Qed.

Lemma reducer_conditional_frequency_witness :
  exists dist,
    reducer (F := float) "me" example_stripes = Ok [("me"%string, dist)]
    /\ forall x,
         dict_get x dist
         = if (0 <? total (bigrams "me" x) [example_tokens])%Z
           then Some (true_div (total (bigrams "me" x) [example_tokens])
                               (total (occurrences "me") [example_tokens]))
           else None.
Proof.
  destruct example_stripes_delivered as (Hmap & Hrec & Hperm).
  apply (reducer_conditional_frequency (F := float) [example_record]
           [example_tokens] example_emitted "me" example_stripes Hmap Hrec Hperm).
  discriminate.
Defined.

(** ** Stripes delivered twice *)

Lemma true_div_doubled (a t : Z) :
  t <> 0%Z -> true_div (F := Q) (a + a) (t + t) = true_div a t.
Proof.
  intros Ht. apply Qred_complete.
  rewrite !inject_Z_plus.
  assert (Hq : ~ (inject_Z t == 0)%Q).
  { intros E. apply (inject_Z_injective t 0) in E. contradiction. }
  field. split; [assumption |].
  intros E. apply Hq.
  assert (E2 : (inject_Z t + inject_Z t == inject_Z (2 * t))%Q).
  { rewrite <- inject_Z_plus. apply inject_Z_injective. lia. }
  rewrite E2 in E. apply (inject_Z_injective (2 * t) 0) in E.
  apply inject_Z_injective. lia.
Qed.

(** X12. With exact quotients, delivering every stripe twice (a partition
    that is run again) does not change the outcome of the reducer: the same
    exception, or the same probability for every neighbor. *)
Theorem reducer_duplicate_delivery (word : string) (strips : list (dict Z)) :
  same_distribution (reducer (F := Q) word (strips ++ strips))
                    (reducer (F := Q) word strips).
Proof.
  assert (Hget : forall k,
             dict_get k (merged_counts (strips ++ strips))
             = option_map (fun a => (a + a)%Z) (dict_get k (merged_counts strips))).
  { intros k. rewrite merged_counts_app_get.
    now destruct (dict_get k (merged_counts strips)). }
  assert (Htot : counter_get DUMCHAR (merged_counts (strips ++ strips))
                 = (counter_get DUMCHAR (merged_counts strips)
                    + counter_get DUMCHAR (merged_counts strips))%Z).
  { unfold counter_get. rewrite Hget.
    now destruct (dict_get DUMCHAR (merged_counts strips)). }
  destruct (merged_counts strips) as [| kv m] eqn:Em.
  - assert (Em2 : merged_counts (strips ++ strips) = []).
    { destruct (merged_counts (strips ++ strips)) as [| [k v] m2];
        [reflexivity |].
      specialize (Hget k). cbn [dict_get option_map] in Hget.
      rewrite String.eqb_refl in Hget. discriminate Hget. }
    rewrite (reducer_empty word _ Em2), (reducer_empty word strips Em).
    unfold same_distribution. now split.
  - rewrite <- Em in *.
    assert (Hm : merged_counts strips <> []) by (rewrite Em; discriminate).
    assert (Hm2 : merged_counts (strips ++ strips) <> []).
    { intros E. destruct kv as [k v]. specialize (Hget k).
      rewrite E, Em in Hget. cbn [dict_get option_map] in Hget.
      rewrite String.eqb_refl in Hget. discriminate Hget. }
    assert (Hs : strips <> []) by (intros ->; now apply Hm).
    assert (Hs2 : strips ++ strips <> [])
      by (intros E; apply app_eq_nil in E as [E _]; contradiction).
    destruct (Z.eq_dec (counter_get DUMCHAR (merged_counts strips)) 0)
      as [Hz | Hnz].
    + rewrite (reducer_zero word (strips ++ strips)),
        (reducer_zero word strips); try assumption; [reflexivity | lia].
    + rewrite (reducer_Ok word (strips ++ strips)), (reducer_Ok word strips);
        try assumption; [| lia].
      unfold same_distribution. split; [reflexivity |]. intros k.
      rewrite (dict_get_map
                 (fun v => true_div v
                             (counter_get DUMCHAR (merged_counts (strips ++ strips))))).
      rewrite (dict_get_map
                 (fun v => true_div v (counter_get DUMCHAR (merged_counts strips)))).
      rewrite !dict_get_del. destruct (String.eqb k DUMCHAR); [reflexivity |].
      rewrite Hget, Htot.
      destruct (dict_get k (merged_counts strips)) as [a |]; [| reflexivity].
      cbn [option_map]. f_equal. now apply true_div_doubled.
Qed.

(** ** The top-ten reducer on arbitrary input *)

(** X13. The top-ten reducer raises in one case only: the target word
    arrives with no distribution, and the exception is then the unbound
    [max_terms]; in particular no index is ever out of range. *)
Theorem reducer_topten_outcome {F : Type} `{PyFloat F}
    (word : string) (probs : list (dict F)) :
  (word = TARGET_WORD /\ probs = []
   /\ reducer_topten word probs = Raise UnboundLocalError)
  \/ ((word <> TARGET_WORD \/ probs <> [])
      /\ exists yielded, reducer_topten word probs = Ok yielded).
Proof.
  destruct (string_dec word TARGET_WORD) as [-> | Hw].
  - destruct probs as [| d probs] using rev_ind.
    + left. now repeat split.
    + right. split.
      * right. intros E. now apply app_eq_nil in E as [_ E].
      * eexists. apply reducer_topten_last.
  - right. split; [now left |]. exists [].
    now apply reducer_topten_other.
Qed.

Lemma ranks_fst {A : Type} (ranks : list Z) (items : list A) :
  List.length ranks = List.length items ->
  map fst (combine ranks items) = ranks /\ map snd (combine ranks items) = items.
Proof.
  revert items. induction ranks as [| r ranks IH]; intros [| x items] E;
    try discriminate E; [now split |].
  cbn [combine map fst snd]. destruct (IH items) as [-> ->]; [| now split].
  now injection E.
Qed.

(** X14. For the target word the output holds K = min(10, n) pairs, n the
    number of entries of the last distribution; its ranks are 1, 2, ..., K
    and its entries are K different entries of that distribution. *)
Theorem reducer_topten_entries {F : Type} `{PyFloat F}
    (probs : list (dict F)) (last : dict F)
    (yielded : list (Z * (string * F))) :
  reducer_topten TARGET_WORD (probs ++ [last]) = Ok yielded ->
  map fst yielded
  = map (fun rank => (Z.of_nat rank + 1)%Z)
        (seq 0 (Nat.min 10 (List.length last)))
  /\ exists others, Permutation last (map snd yielded ++ others).
Proof.
  rewrite reducer_topten_last. intros E. injection E as <-.
  unfold ranked. rewrite sorted_desc_length.
  set (K := Nat.min 10 (List.length last)).
  destruct (ranks_fst (map (fun rank => (Z.of_nat rank + 1)%Z) (seq 0 K))
              (firstn K (sorted_desc last))) as [Hf Hs].
  { rewrite length_map, length_seq, length_firstn, sorted_desc_length.
    subst K. lia. }
  rewrite Hf, Hs. split; [reflexivity |].
  exists (skipn K (sorted_desc last)).
  rewrite firstn_skipn. symmetry. apply sorted_desc_Permutation.
Qed.

Lemma reducer_topten_entries_witness :
  map fst [(1%Z, ("b"%string, 1%float))]
  = map (fun rank => (Z.of_nat rank + 1)%Z)
        (seq 0 (Nat.min 10 (List.length [("b"%string, 1%float)])))
  /\ exists others,
       Permutation [("b"%string, 1%float)]
         (map snd [(1%Z, ("b"%string, 1%float))] ++ others).
Proof.
  apply (reducer_topten_entries (F := float) [[("a"%string, 1%float)]]).
  vm_compute. reflexivity.
Defined.

Lemma StronglySorted_app_inv {A : Type} (R : A -> A -> Prop) (l1 l2 : list A) :
  StronglySorted R (l1 ++ l2) ->
  StronglySorted R l1 /\ forall a b, In a l1 -> In b l2 -> R a b.
Proof.
  induction l1 as [| x l1 IH]; intros Hs.
  - split; [constructor | intros a b []].
  - cbn [app] in Hs. inversion Hs as [| ? ? Hs' Hx]; subst.
    destruct (IH Hs') as [Hs1 Hcross]. split.
    + constructor; [assumption |].
      apply Forall_forall. intros a Ha. rewrite Forall_forall in Hx.
      apply Hx, in_or_app. now left.
    + intros a b [<- | Ha] Hb.
      * rewrite Forall_forall in Hx. apply Hx, in_or_app. now right.
      * now apply Hcross.
Qed.

(** X15. With exact probabilities the output for the target word is in
    descending order of probability, and every entry of the last distribution
    that is left out has a probability no greater than any entry yielded. *)
Theorem reducer_topten_greatest
    (probs : list (dict Q)) (last : dict Q)
    (yielded : list (Z * (string * Q))) :
  reducer_topten TARGET_WORD (probs ++ [last]) = Ok yielded ->
  StronglySorted (fun a b => (snd b <= snd a)%Q) (map snd yielded)
  /\ exists others,
       Permutation last (map snd yielded ++ others)
       /\ forall a b, In a (map snd yielded) -> In b others ->
                      (snd b <= snd a)%Q.
Proof.
  rewrite reducer_topten_last. intros E. injection E as <-.
  unfold ranked. rewrite sorted_desc_length.
  set (K := Nat.min 10 (List.length last)).
  destruct (ranks_fst (map (fun rank => (Z.of_nat rank + 1)%Z) (seq 0 K))
              (firstn K (sorted_desc last))) as [_ Hs].
  { rewrite length_map, length_seq, length_firstn, sorted_desc_length.
    subst K. lia. }
  rewrite Hs.
  pose proof (sorted_desc_sorted last) as Hsorted.
  rewrite <- (firstn_skipn K (sorted_desc last)) in Hsorted.
  apply StronglySorted_app_inv in Hsorted as [Hfirst Hcross].
  split; [assumption |].
  exists (skipn K (sorted_desc last)). split; [| assumption].
  rewrite firstn_skipn. symmetry. apply sorted_desc_Permutation.
Qed.

Lemma reducer_topten_greatest_witness :
  StronglySorted (fun a b => (snd b <= snd a)%Q)
    (map snd [(1%Z, ("zebra"%string, (1 # 2)%Q)); (2%Z, ("apple"%string, (1 # 2)%Q))])
  /\ exists others,
       Permutation example_tie
         (map snd [(1%Z, ("zebra"%string, (1 # 2)%Q));
                   (2%Z, ("apple"%string, (1 # 2)%Q))] ++ others)
       /\ forall a b,
            In a (map snd [(1%Z, ("zebra"%string, (1 # 2)%Q));
                           (2%Z, ("apple"%string, (1 # 2)%Q))]) ->
            In b others -> (snd b <= snd a)%Q.
Proof.
  apply (reducer_topten_greatest [] example_tie). reflexivity.
Defined.

(** ** The two steps in sequence *)



(** ** The SELF marker and the case of letters *)

(** X17. The SELF marker never collides with a token: the mapper yields no
    pair under the key [*]. *)
Theorem mapper_never_keys_self
    (line : string) (yielded : list (string * dict Z)) :
  mapper line = Ok yielded ->
  ~ In DUMCHAR (map fst yielded).
Proof.
  intros Emap.
  apply mapper_Ok_inv in Emap as (tokens & _ & Hclean & ->).
  now rewrite stripes_from_keys_in_order.
Qed.

Lemma mapper_never_keys_self_witness :
  ~ In DUMCHAR (map fst example_emitted).
Proof.
  apply (mapper_never_keys_self example_record). reflexivity.
Defined.

Lemma lower_char_punctuation (c : ascii) :
  ascii_in (lower_char c) punctuation = ascii_in c punctuation.
Proof. destruct c as [[] [] [] [] [] [] [] []]; reflexivity. Qed.

Lemma lower_char_idempotent (c : ascii) :
  lower_char (lower_char c) = lower_char c.
Proof. destruct c as [[] [] [] [] [] [] [] []]; reflexivity. Qed.

Lemma translate_lower (s : list ascii) :
  translate (lower s) = lower (translate s).
Proof.
  unfold translate, lower. induction s as [| c s IH]; [reflexivity |].
  cbn [map filter]. rewrite lower_char_punctuation, IH.
  now destruct (ascii_in c punctuation).
Qed.

Lemma lstrip_lower (s : list ascii) :
  lstrip (lower s) = lower (lstrip s).
Proof.
  unfold lower. induction s as [| c s IH]; [reflexivity |].
  cbn [map lstrip]. rewrite lower_char_space.
  now destruct (is_space c).
Qed.

Lemma strip_lower (s : list ascii) :
  strip (lower s) = lower (strip s).
Proof.
  unfold strip. rewrite lstrip_lower.
  unfold lower at 1. rewrite <- map_rev. fold (lower (rev (lstrip s))).
  rewrite lstrip_lower. unfold lower. now rewrite map_rev.
Qed.

Lemma lower_idempotent (s : list ascii) :
  lower (lower s) = lower s.
Proof.
  unfold lower. rewrite map_map. apply map_ext. apply lower_char_idempotent.
Qed.

(** X18. The job does not see the case of letters: a record and the same
    record with its text in lower case yield the same stripes. *)
Theorem mapper_case_insensitive (id text : string) :
  ~ In ","%char (list_ascii_of_string id) ->
  mapper (id ++ "," ++ string_of_list_ascii (lower (list_ascii_of_string text)))%string
  = mapper (id ++ "," ++ text)%string.
Proof.
  intros Hid. unfold mapper.
  rewrite !tokenize_fields by assumption.
  rewrite list_ascii_of_string_of_list_ascii.
  now rewrite translate_lower, strip_lower, lower_idempotent.
Qed.

Lemma mapper_case_insensitive_witness :
  mapper ("1" ++ "," ++ string_of_list_ascii
                          (lower (list_ascii_of_string "I like Me")))%string
  = mapper ("1" ++ "," ++ "I like Me")%string.
Proof.
  apply (mapper_case_insensitive "1" "I like Me").
  simpl. intros [E | []]. discriminate E.
Defined.
